(** * tweet-tree: the search cursor of [search_cursor.rs] and the crawl of
    [main.rs], embedded in Rocq.

    Network calls are oracles (section variables): the search endpoint
    answers a cursor, the user lookup answers an author id, and so on.
    Futures are modelled as already resolved: the [Poll::Pending] branch of
    [poll_next] only puts the same future back and returns, so it does not
    change what the stream yields. *)

From Stdlib Require Import ZArith List String Ascii Lia DecimalString DecimalZ.
From stdpp Require Import base gmap sets list strings.

Open Scope Z_scope.

(** ** Shared types *)

(** The errors that [?] propagates in the source (egg_mode's error type,
    [ParseIntError] of [u8::from_str_radix]). *)
Inductive Error :=
| TransportError
| AuthenticationError
| NotFoundError
| MalformedResponseError
| ParseIntError.

(** Rust's [Result<A, Error>] as returned by the network calls. *)
Inductive result (A : Type) :=
| Ok (a : A)
| Err (e : Error).
Arguments Ok {A} a.
Arguments Err {A} e.

(** The places where the source panics. *)
Inductive PanicSite :=
| UnwrapAuthorId          (* main.rs:210  t.author_id.unwrap() *)
| UnwrapInReplyTo         (* main.rs:223  t.in_reply_to_status_id.unwrap() *)
| UnwrapRootUser          (* main.rs:198  root.user.as_ref().unwrap() *)
| IndexOutOfBounds        (* main.rs:139  lookup(..).await?[0] *)
| StrSliceOutOfRange.     (* main.rs:143-145  &c[i..j] *)

(** What a computation ends with: a value, an error returned by [?], a
    panic, or (for the loops, which run on fuel) running out of fuel. *)
Inductive res (A : Type) :=
| ROk (a : A)
| RErr (e : Error)
| RPanic (p : PanicSite)
| RFuel.
Arguments ROk {A} a.
Arguments RErr {A} e.
Arguments RPanic {A} p.
Arguments RFuel {A}.

(** The observable network activity and console advisory of a run. *)
Inductive event :=
| EvAuth                      (* auth::bearer_token *)
| EvShowRoot                  (* tweet::show *)
| EvUserLookup (uid : Z)      (* user::lookup inside User::new *)
| EvPageRequest (cursor : Z)  (* SearchCursorIter::call *)
| EvAdvisory.                 (* the "over 7 days old" warning *)

Global Instance event_eq_dec : EqDecision event.
Proof. solve_decision. Qed.

(** ** The crawl monad: error and panic, the thread-local RNG (the number
    of draws so far) as state, and the event trace as output. *)

Record run (A : Type) := mkRun {
  outcome : res A;
  rng_after : nat;
  trace : list event
}.
Arguments mkRun {A} outcome rng_after trace.
Arguments outcome {A} r.
Arguments rng_after {A} r.
Arguments trace {A} r.

Definition M (A : Type) : Type := nat -> run A.

Definition mret {A} (a : A) : M A := fun n => mkRun (ROk a) n [].

Definition mbind {A B} (m : M A) (k : A -> M B) : M B :=
  fun n =>
    let r := m n in
    match outcome r with
    | ROk a =>
        let r' := k a (rng_after r) in
        mkRun (outcome r') (rng_after r') (trace r ++ trace r')
    | RErr e => mkRun (RErr e) (rng_after r) (trace r)
    | RPanic p => mkRun (RPanic p) (rng_after r) (trace r)
    | RFuel => mkRun RFuel (rng_after r) (trace r)
    end.

Notation "'let!' x ':=' m 'in' k" := (mbind m (fun x => k))
  (at level 200, x name, m at level 100, k at level 200).
Notation "'let!' ' p ':=' m 'in' k" := (mbind m (fun x => match x with p => k end))
  (at level 200, p pattern, m at level 100, k at level 200).

Definition emit (ev : event) : M unit := fun n => mkRun (ROk tt) n [ev].
Definition throw {A} (e : Error) : M A := fun n => mkRun (RErr e) n [].
Definition panic {A} (p : PanicSite) : M A := fun n => mkRun (RPanic p) n [].
Definition out_of_fuel {A} : M A := fun n => mkRun RFuel n [].

(** The [?] operator on a [Result]. *)
Definition lift {A} (r : result A) : M A :=
  match r with Ok a => mret a | Err e => throw e end.

(** [Option::unwrap]. *)
Definition unwrap {A} (o : option A) (site : PanicSite) : M A :=
  match o with Some a => mret a | None => panic site end.

(** A computation that neither draws from the RNG nor depends on how many
    draws came before it. *)
Definition rng_free {A} (m : M A) : Prop :=
  forall n, m n = mkRun (outcome (m 0%nat)) n (trace (m 0%nat)).

(** Every panic the computation can end in satisfies [P]. *)
Definition only_panics {A} (P : PanicSite -> Prop) (m : M A) : Prop :=
  forall n p, outcome (m n) = RPanic p -> P p.

(** ** search_cursor.rs *)

Module SearchCursor.

(** egg_mode's rate-limit envelope [Response<T>]. *)
Record RateLimit := { rl_limit : Z; rl_remaining : Z; rl_reset : Z }.

Record Response (T : Type) := {
  rate_limit_status : RateLimit;
  response : T
}.
Arguments rate_limit_status {T} r.
Arguments response {T} r.

(** A page as the [Cursor] trait exposes it to [poll_next]:
    [previous_cursor_id], [next_cursor_id] (0 when there is no further
    page) and [into_inner], the items. *)
Record Page (I : Type) := {
  previous_cursor_id : Z;
  next_cursor_id : Z;
  into_inner : list I
}.
Arguments previous_cursor_id {I} p.
Arguments next_cursor_id {I} p.
Arguments into_inner {I} p.

Section Cursor.
Context {Item : Type}.

(** The request issued by [call] for a given cursor value: the link, token,
    base parameters and page size are fixed per instance, so the endpoint
    is a function of the cursor. *)
Variable endpoint : Z -> result (Response (Page Item)).

(** [SearchCursorIter] (the fields that change while polling). *)
Record SearchCursorIter := {
  previous_cursor : Z;
  next_cursor : Z;
  loader : option (result (Response (Page Item)));
  iter : option (list (Response Item))
}.

Definition set_loader (st : SearchCursorIter) l :=
  {| previous_cursor := previous_cursor st; next_cursor := next_cursor st;
     loader := l; iter := iter st |}.
Definition set_iter (st : SearchCursorIter) i :=
  {| previous_cursor := previous_cursor st; next_cursor := next_cursor st;
     loader := loader st; iter := i |}.
Definition set_cursors (st : SearchCursorIter) p nx :=
  {| previous_cursor := p; next_cursor := nx;
     loader := loader st; iter := iter st |}.

(** [CursorIter::new]. *)
Definition new : SearchCursorIter :=
  {| previous_cursor := -1; next_cursor := -1; loader := None; iter := None |}.

(** [call]: requests the page for the current [next_cursor]. *)
Definition call (st : SearchCursorIter) : M (result (Response (Page Item))) :=
  let! _ := emit (EvPageRequest (next_cursor st)) in mret (endpoint (next_cursor st)).

(** The [if let Some(mut fut) = self.loader.take()] branch, once the future
    is ready. *)
Definition poll_loaded (st : SearchCursorIter) (fut : result (Response (Page Item)))
  : M (SearchCursorIter * option (result (Response Item))) :=
  match fut with
  | Ok resp =>
      let st := set_cursors st (previous_cursor_id (response resp))
                               (next_cursor_id (response resp)) in
      let rate := rate_limit_status resp in
      let items := map (fun item => {| rate_limit_status := rate; response := item |})
                       (into_inner (response resp)) in
      match items with
      | first :: rest => mret (set_iter st (Some rest), Some (Ok first))
      | [] => mret (set_iter st (Some []), None)
      end
  | Err e => mret (st, Some (Err e))
  end.

(** [poll_next]. The final [self.loader = Some(..); self.poll_next(cx)]
    re-enters the loader branch with the fresh future. *)
Definition poll_next (st : SearchCursorIter)
  : M (SearchCursorIter * option (result (Response Item))) :=
  let reload st := let! fut := call st in poll_loaded (set_loader st None) fut in
  match loader st with
  | Some fut => poll_loaded (set_loader st None) fut
  | None =>
      match iter st with
      | Some (item :: rest) => mret (set_iter st (Some rest), Some (Ok item))
      | Some [] => if next_cursor st =? 0 then mret (st, None) else reload st
      | None => reload st
      end
  end.

(** Draining the stream into a list, stopping at the first error (what a
    consumer such as [try_collect] or the loop of [main] does). *)
Fixpoint collect (fuel : nat) (st : SearchCursorIter) : M (list (Response Item)) :=
  match fuel with
  | O => out_of_fuel
  | S fuel =>
      let! '(st, o) := poll_next st in
      match o with
      | None => mret []
      | Some (Err e) => throw e
      | Some (Ok x) => let! xs := collect fuel st in mret (x :: xs)
      end
  end.

(** The items of one page, each wrapped in that page's envelope. *)
Definition page_items (p : Response (Page Item)) : list (Response Item) :=
  map (fun item => {| rate_limit_status := rate_limit_status p; response := item |})
      (into_inner (response p)).

(** A mock sequence of pages linked by continuation tokens: the page
    answered for cursor [c] is the head, every page but the last carries a
    token (non-zero) leading to the next one, the last carries none. *)
Fixpoint chain (c : Z) (pages : list (Response (Page Item))) : Prop :=
  match pages with
  | [] => False
  | p :: ps =>
      endpoint c = Ok p /\
      match ps with
      | [] => next_cursor_id (response p) = 0
      | _ :: _ => next_cursor_id (response p) <> 0 /\ chain (next_cursor_id (response p)) ps
      end
  end.

(** The concatenation of the pages' items, in page order. *)
Definition flat_pages (pages : list (Response (Page Item))) : list (Response Item) :=
  concat (map page_items pages).

(** The concatenation of the pages' items up to, not including, the first
    page without items. *)
Fixpoint flat_until_empty (pages : list (Response (Page Item))) : list (Response Item) :=
  match pages with
  | [] => []
  | p :: ps =>
      match into_inner (response p) with
      | [] => []
      | _ :: _ => page_items p ++ flat_until_empty ps
      end
  end.

End Cursor.

End SearchCursor.

(** ** main.rs *)

Module Crawl.
Import SearchCursor.

(** The raw search result item ([tweet::all_children_raw] yields these). *)
Record RawTweet := {
  raw_id : Z;
  author_id : option Z;
  raw_replied_to : option Z
}.

(** egg_mode's [tweet::Tweet], the fields [main] reads. *)
Record Tweet := {
  id : Z;
  in_reply_to_status_id : option Z
}.

(** egg_mode's [TwitterUser], the fields [User::new] reads. *)
Record TwitterUser := {
  screen_name : string;
  user_name : string;
  profile_background_color : string
}.

(** [struct User]. *)
Record User := {
  handle : string;
  name : string;
  color : Z * Z * Z
}.

(** The root tweet as [tweet::show] returns it: creation time in
    nanoseconds since the epoch, and the author. *)
Record RootTweet := {
  created_at : Z;
  root_user : option Z
}.

(** *** String slicing and [u8::from_str_radix(_, 16)] *)

(** [str::is_char_boundary] on the UTF-8 bytes of the string. *)
Definition is_char_boundary (s : string) (i : nat) : bool :=
  match i with
  | O => true
  | _ =>
      match String.get i s with
      | None => Nat.eqb i (String.length s)
      | Some b => negb ((128 <=? nat_of_ascii b)%nat && (nat_of_ascii b <? 192)%nat)
      end
  end.

(** [&s[i..j]]: panics unless [i <= j] and both ends are char boundaries
    (which includes [j <= s.len()]). *)
Definition slice (s : string) (i j : nat) : M string :=
  if (i <=? j)%nat && is_char_boundary s i && is_char_boundary s j
  then mret (String.substring i (j - i) s)
  else panic StrSliceOutOfRange.

(** [char::to_digit(16)]. *)
Definition to_digit16 (a : ascii) : option Z :=
  let n := Z.of_nat (nat_of_ascii a) in
  if (48 <=? n) && (n <=? 57) then Some (n - 48)
  else if (97 <=? n) && (n <=? 102) then Some (n - 87)
  else if (65 <=? n) && (n <=? 70) then Some (n - 55)
  else None.

(** The digit loop of [from_str_radix] for [u8]: checked multiply and add. *)
Fixpoint u8_digits (acc : Z) (s : string) : result Z :=
  match s with
  | EmptyString => Ok acc
  | String a rest =>
      match to_digit16 a with
      | None => Err ParseIntError
      | Some d =>
          if 255 <? acc * 16 then Err ParseIntError
          else if 255 <? acc * 16 + d then Err ParseIntError
          else u8_digits (acc * 16 + d) rest
      end
  end.

(** [u8::from_str_radix(s, 16)]: empty input and a lone sign are errors;
    a leading [+] is skipped; [-] is a digit error for an unsigned type. *)
Definition u8_from_str_radix16 (s : string) : result Z :=
  match s with
  | EmptyString => Err ParseIntError
  | String a rest =>
      if (Ascii.eqb a "+"%char || Ascii.eqb a "-"%char) && String.eqb rest ""
      then Err ParseIntError
      else if Ascii.eqb a "+"%char then u8_digits 0 rest
      else u8_digits 0 s
  end.

Section Crawl.

(** [user::lookup] for one id. *)
Variable lookup : Z -> result (list TwitterUser).
(** The conversion [t.clone().try_into()] (of the dereferenced item) of a raw item into a [Tweet]. *)
Variable try_into : RawTweet -> result Tweet.
(** [thread_rng().gen::<(u8, u8, u8)>()], as the [k]-th draw. *)
Variable rng : nat -> Z * Z * Z.

(** One draw from the thread-local RNG. *)
Definition gen_color : M (Z * Z * Z) :=
  fun n => mkRun (ROk (rng n)) (S n) [].

(** The color branch of [User::new] (main.rs:141-149). *)
Definition user_color (c : string) : M (Z * Z * Z) :=
  if negb (String.eqb c "000000") then
    let! s := slice c 0 2 in let! r := lift (u8_from_str_radix16 s) in
    let! s := slice c 2 4 in let! g := lift (u8_from_str_radix16 s) in
    let! s := slice c 4 6 in let! b := lift (u8_from_str_radix16 s) in
    mret (r, g, b)
  else gen_color.

(** [User::new]. *)
Definition user_new (uid : Z) : M User :=
  let! _ := emit (EvUserLookup uid) in
  let! users := lift (lookup uid) in
  let! user := unwrap (head users) IndexOutOfBounds in
  let! c := user_color (profile_background_color user) in
  mret {| handle := screen_name user; name := user_name user; color := c |}.

(** petgraph's [DiGraphMap<TweetId, UserId>]: a node set and a map from
    (source, target) to the edge weight. *)
Record Graph := {
  nodes : gset Z;
  edges : gmap (Z * Z) Z
}.

Definition graph_new : Graph := {| nodes := ∅; edges := ∅ |}.

(** [add_node]. *)
Definition add_node (n : Z) (g : Graph) : Graph :=
  {| nodes := {[n]} ∪ nodes g; edges := edges g |}.

(** [add_edge]: adds both endpoints if absent and inserts the edge,
    replacing the weight of an existing one. *)
Definition add_edge (a b w : Z) (g : Graph) : Graph :=
  {| nodes := {[a; b]} ∪ nodes g; edges := <[(a, b) := w]> (edges g) |}.

(** The number of edges into [n]. *)
Definition in_degree (g : Graph) (n : Z) : nat :=
  length (filter (fun e : Z * Z => e.2 = n) (elements (dom (edges g)))).

(** The state [main] accumulates. *)
Record CrawlState := {
  users : gmap Z (User * nat);
  tweets : gmap Z Z;
  graph : Graph
}.

(** main.rs:212-218: find the author or insert it with count 0 (after one
    [User::new]), then [*count += 1]. *)
Definition resolve_author (us : gmap Z (User * nat)) (a : Z)
  : M (gmap Z (User * nat)) :=
  let! us := match us !! a with
             | Some _ => mret us
             | None => let! u := user_new a in mret (<[a := (u, 0%nat)]> us)
             end in
  mret (alter (fun p : User * nat => (p.1, S p.2)) a us).

(** The body of the [while let] loop (main.rs:209-224), after [t?]. *)
Definition process (st : CrawlState) (t : Response RawTweet) : M CrawlState :=
  let! a := unwrap (author_id (response t)) UnwrapAuthorId in
  let! us := resolve_author (users st) a in
  let! tw := lift (try_into (response t)) in
  let tws := <[id tw := a]> (tweets st) in
  let! prev := unwrap (in_reply_to_status_id tw) UnwrapInReplyTo in
  mret {| users := us; tweets := tws; graph := add_edge prev (id tw) a (graph st) |}.

(** [while let Some(t) = children.next().await { let t = t?; .. }], over
    any stream given by its [poll_next]. *)
Fixpoint consume {S : Type}
    (poll : S -> M (S * option (result (Response RawTweet))))
    (fuel : nat) (s : S) (st : CrawlState) : M CrawlState :=
  match fuel with
  | O => out_of_fuel
  | Datatypes.S fuel =>
      let! '(s, o) := poll s in
      match o with
      | None => mret st
      | Some r => let! t := lift r in let! st := process st t in consume poll fuel s st
      end
  end.

(** main.rs:197-205: the tables before the loop. *)
Definition init (root_tweet_id root_user_id : Z) : M CrawlState :=
  let! u := user_new root_user_id in
  mret {| users := {[root_user_id := (u, 1%nat)]};
          tweets := {[root_tweet_id := root_user_id]};
          graph := add_node root_tweet_id graph_new |}.

(** A stream that yields the items of a list: the flattened sequence the
    builder sees. *)
Definition poll_list (l : list (Response RawTweet))
  : M (list (Response RawTweet) * option (result (Response RawTweet))) :=
  match l with
  | [] => mret ([], None)
  | t :: rest => mret (rest, Some (Ok t))
  end.

(** The builder (main.rs:197-225) run over a given flattened stream. *)
Definition build (root_tweet_id root_user_id : Z) (l : list (Response RawTweet))
    (fuel : nat) : M CrawlState :=
  let! st := init root_tweet_id root_user_id in
  consume poll_list fuel l st.

(** [Duration::num_days] of [now - created]: both divisions truncate
    toward zero (nanoseconds to seconds, seconds to days). *)
Definition num_days (d_ns : Z) : Z := Z.quot (Z.quot d_ns 1000000000) 86400.

(** The remaining oracles of [main]. *)
Variable bearer_token : result unit.
Variable show : Z -> result RootTweet.
Variable endpoint : Z -> result (Response (Page RawTweet)).

(** [main] (main.rs:163-230) after argument parsing, at time [now]
    (nanoseconds since the epoch). The final [eprintln!] is omitted; the
    crawl state is returned for inspection. *)
Definition main (root_tweet_id now : Z) (fuel : nat) : M CrawlState :=
  let! _ := emit EvAuth in
  let! _token := lift bearer_token in
  let! _ := emit EvShowRoot in
  let! root := lift (show root_tweet_id) in
  let! _ := if 7 <=? num_days (now - created_at root) then emit EvAdvisory else mret tt in
  let! root_user_id := unwrap (root_user root) UnwrapRootUser in
  let! st := init root_tweet_id root_user_id in
  consume (poll_next endpoint) fuel new st.

(** *** Observations used by the statements below *)

(** The number of streamed posts by author [a]. *)
Definition posts_by (a : Z) (l : list (Response RawTweet)) : nat :=
  length (filter (fun t => author_id (response t) = Some a) l).

(** The number of [user::lookup] calls for [a] in a trace. *)
Definition lookups (a : Z) (tr : list event) : nat :=
  length (filter (fun ev => ev = EvUserLookup a) tr).

(** The reply count stored for [a] (0 when [a] is not in the table). *)
Definition reply_count (us : gmap Z (User * nat)) (a : Z) : nat :=
  match us !! a with Some (_, c) => c | None => 0%nat end.

(** The network call behind an event answered with an error. *)
Definition fails (root_tweet_id : Z) (ev : event) : Prop :=
  match ev with
  | EvAuth => exists e, bearer_token = Err e
  | EvShowRoot => exists e, show root_tweet_id = Err e
  | EvUserLookup u => exists e, lookup u = Err e
  | EvPageRequest c => exists e, endpoint c = Err e
  | EvAdvisory => False
  end.

(** The edge (parent, child, author) a streamed post contributes. *)
Definition edge_of (t : Response RawTweet) (e : Z * Z * Z) : Prop :=
  author_id (response t) = Some e.2 /\
  exists tw, try_into (response t) = Ok tw /\ id tw = e.1.2 /\
             in_reply_to_status_id tw = Some e.1.1.

(** [User::new] for [a] succeeds from some RNG position. *)
Definition new_ok (a : Z) : Prop :=
  exists n u n' tr, user_new a n = mkRun (ROk u) n' tr.

(** A streamed post the loop body processes without error or panic, given
    the users already in the table: its author is present or can be
    resolved, it converts, and it names its parent. *)
Definition post_ok (us : gmap Z (User * nat)) (t : Response RawTweet) : Prop :=
  exists a tw p,
    author_id (response t) = Some a /\ (is_Some (us !! a) \/ new_ok a) /\
    try_into (response t) = Ok tw /\ in_reply_to_status_id tw = Some p.

(** A streamed post carrying both fields the loop unwraps: the author id,
    and the parent id of its conversion. *)
Definition carries_ids (t : Response RawTweet) : Prop :=
  (exists a, author_id (response t) = Some a) /\
  (forall tw, try_into (response t) = Ok tw -> exists p, in_reply_to_status_id tw = Some p).

End Crawl.

(** Adding a list of (parent, child, author) edges in order. *)
Definition graph_fold (es : list (Z * Z * Z)) (g : Graph) : Graph :=
  fold_left (fun g (e : Z * Z * Z) => add_edge e.1.1 e.1.2 e.2 g) es g.

(** An execution ending in an error: [is_err]. *)
Definition is_err {A} (r : res A) : Prop :=
  match r with RErr _ => True | _ => False end.

(** A computation that stops at the first network call answered with an
    error ([failing]): such a call is the last event of the run, and the
    run ends in an error. *)
Definition stops_on_error {A} (failing : event -> Prop) (m : M A) : Prop :=
  forall n pre ev post, trace (m n) = pre ++ ev :: post -> failing ev ->
  post = [] /\ is_err (outcome (m n)).

(** The same for a stream's [poll_next], which hands the error to its
    consumer as [Some(Err(e))] instead of returning it. *)
Definition poll_stops {S X} (failing : event -> Prop)
    (m : M (S * option (result X))) : Prop :=
  forall n pre ev post, trace (m n) = pre ++ ev :: post -> failing ev ->
  post = [] /\ exists s e, outcome (m n) = ROk (s, Some (Err e)).

(** Every event of every run of [m] satisfies [P]. *)
Definition emits_only {A} (P : event -> Prop) (m : M A) : Prop :=
  forall n, Forall P (trace (m n)).

End Crawl.

(** ** The command-line arguments (main.rs:19-106, 165-168) *)

Module Args.

(** [trait EnvVarOrArg]: the constants of one argument. *)
Record EnvVarOrArg := {
  NAME : string;
  VAR_NAME : string;
  ARG_NAME : string
}.

(** The two instances made by [env_var_arg!]. *)
Definition ConsumerKey : EnvVarOrArg :=
  {| NAME := "Twitter API Consumer Key"; VAR_NAME := "TWITTER_CONSUMER_KEY";
     ARG_NAME := "consumer-key" |}.

(** [ArgWithEnvVarDefault<A>]: its [OnceCell<String>]; the [PhantomData]
    only carries [A], which the functions below take explicitly. *)
Record ArgWithEnvVarDefault := mkArg { cell : option string }.

(** [Default::default]: an empty cell. *)
Definition default : ArgWithEnvVarDefault := mkArg None.

(** [Display::fmt]: the cell's contents, nothing when it is empty. *)
Definition fmt (x : ArgWithEnvVarDefault) : string :=
  match cell x with Some inner => inner | None => ""%string end.

(** [FromStr::from_str] (its error type is [Infallible]): the empty string
    leaves the cell empty, any other string fills it. *)
Definition from_str (s : string) : ArgWithEnvVarDefault :=
  mkArg (if String.eqb s "" then None else Some s).

(** What structopt parses for a field with a bare [default_value]: the
    given value, or [Default::default().to_string()] when it is absent. *)
Definition parse_arg (a : option string) : ArgWithEnvVarDefault :=
  from_str (match a with Some s => s | None => fmt default end).

(** The report built when [$VAR_NAME] cannot be read: the
    [wrap_err_with] message and the [with_suggestion] text. *)
Definition env_error (A : EnvVarOrArg) : string :=
  ("Unable to get the " ++ NAME A ++ " from `$" ++ VAR_NAME A ++ "`.")%string.
Definition env_suggestion (A : EnvVarOrArg) : string :=
  ("pass in `--" ++ ARG_NAME A ++ "` or set `$" ++ VAR_NAME A ++ "`")%string.

(** The outcome of [Deref::deref]: the (possibly filled) cell and the
    string, or the panic of [.unwrap()] on the report. *)
Inductive deref_result :=
| Deref (x : ArgWithEnvVarDefault) (v : string)
| DerefPanic (msg suggestion : string).

(** [Deref::deref]: [get_or_try_init] reads [env::var(A::VAR_NAME)] only
    when the cell is empty, and fills the cell on success. [env] answers
    [None] when the variable is not present or not unicode. *)
Definition deref (A : EnvVarOrArg) (env : string -> option string)
    (x : ArgWithEnvVarDefault) : deref_result :=
  match cell x with
  | Some v => Deref x v
  | None =>
      match env (VAR_NAME A) with
      | Some v => Deref (mkArg (Some v)) v
      | None => DerefPanic (env_error A) (env_suggestion A)
      end
  end.



End Args.

(** ** The request parameters of [CursorIter] (search_cursor.rs:58-118) *)

Module CursorConfig.
Import SearchCursor.

(** egg_mode's [ParamList]: a map from parameter names to values. *)
Notation ParamList := (gmap string string).

(** [ParamList::add_param]: inserts, replacing an existing value. *)
Definition add_param (key value : string) (p : ParamList) : ParamList := <[key := value]> p.

(** [ParamList::add_opt_param]: adds the value when there is one. *)
Definition add_opt_param (key : string) (value : option string) (p : ParamList) : ParamList :=
  match value with Some v => add_param key v p | None => p end.

(** [ToString] of an integer: its decimal form, with a leading [-] when
    negative. *)
Definition to_string (z : Z) : string := NilZero.string_of_int (Z.to_int z).

(** [MapString::map_string] on an [Option<i32>]. *)
Definition map_string (o : option Z) : option string := option_map to_string o.

(** [CursorIter<T>] with its configuration fields; the polling fields are
    those of [SearchCursorIter]. The token is fixed and left out. *)
Record CursorIter {Item : Type} := {
  link : string;
  params_base : option ParamList;
  page_size : option Z;
  cursor : SearchCursorIter (Item := Item)
}.
Arguments CursorIter Item : clear implicits.

Section Config.
Context {Item : Type}.

(** [CursorIter::new]. *)
Definition new (link : string) (params_base : option ParamList) (page_size : option Z)
  : CursorIter Item :=
  {| link := link; params_base := params_base; page_size := page_size;
     cursor := {| previous_cursor := -1; next_cursor := -1; loader := None; iter := None |} |}.

(** [with_page_size]. *)
Definition with_page_size (self : CursorIter Item) (ps : Z) : CursorIter Item :=
  match page_size self with
  | Some _ =>
      {| link := link self; params_base := params_base self; page_size := Some ps;
         cursor := {| previous_cursor := -1; next_cursor := -1; loader := None; iter := None |} |}
  | None => self
  end.

(** [self.params_base.as_ref().cloned().unwrap_or_default()]. *)
Definition base_params (self : CursorIter Item) : ParamList :=
  match params_base self with Some p => p | None => ∅ end.

(** The parameters [call] sends. *)
Definition call_params (self : CursorIter Item) : ParamList :=
  add_opt_param "count" (map_string (page_size self))
    (add_param "cursor" (to_string (next_cursor (cursor self))) (base_params self)).

End Config.

End CursorConfig.

(** ** What [main] reports, and observations of a crawl *)

Module Report.
Import SearchCursor Crawl.

(** [graph.node_count()]. *)
Definition node_count (g : Graph) : nat := size (nodes g).

(** The two numbers of the final [eprintln!]: [graph.node_count()] and
    [users.len()]. *)
Definition summary (st : CrawlState) : nat * nat := (node_count (graph st), size (users st)).

(** The sum of the reply counts of the author table. *)
Definition reply_total (us : gmap Z (User * nat)) : nat :=
  sum_list_with (fun kv : Z * (User * nat) => kv.2.2) (map_to_list us).

(** The author ids carried by the streamed posts. *)
Definition authors (l : list (Response RawTweet)) : gset Z :=
  list_to_set (omap (fun t : Response RawTweet => author_id (response t)) l).



End Report.

(** ** Concrete fixtures *)

Module Fixtures.
Import SearchCursor Crawl.

Definition rl0 : RateLimit := {| rl_limit := 180; rl_remaining := 179; rl_reset := 0 |}.

Definition page (prev nx : Z) (items : list Z) : Response (Page Z) :=
  {| rate_limit_status := rl0;
     response := {| previous_cursor_id := prev; next_cursor_id := nx; into_inner := items |} |}.

(** Three pages linked by the tokens 5 and 6; the middle one is empty. *)
Definition pages_gap : list (Response (Page Z)) :=
  [page 0 5 [1]; page 0 6 []; page 0 0 [2]].

Definition endpoint_gap (c : Z) : result (Response (Page Z)) :=
  if c =? -1 then Ok (page 0 5 [1])
  else if c =? 5 then Ok (page 0 6 [])
  else if c =? 6 then Ok (page 0 0 [2])
  else Err TransportError.

(** Two pages linked by the token 5, both with items. *)
Definition pages_two : list (Response (Page Z)) :=
  [page 0 5 [1; 2]; page 0 0 [3]].

Definition endpoint_two (c : Z) : result (Response (Page Z)) :=
  if c =? -1 then Ok (page 0 5 [1; 2])
  else if c =? 5 then Ok (page 0 0 [3])
  else Err TransportError.

(** The same two pages, answered by a differently written endpoint. *)
Definition endpoint_two' (c : Z) : result (Response (Page Z)) :=
  if c =? 5 then Ok (page 0 0 [3])
  else if c =? -1 then Ok (page 0 5 [1; 2])
  else Err TransportError.

(** An empty first page that carries the token 5. *)
Definition endpoint_empty_first (c : Z) : result (Response (Page Z)) :=
  if c =? -1 then Ok (page 0 5 [])
  else if c =? 5 then Ok (page 0 0 [7])
  else Err TransportError.

(** Author profiles: a declared background color and the unset one. *)
Definition prof_c0deed : TwitterUser :=
  {| screen_name := "alice"; user_name := "Alice"; profile_background_color := "C0DEED" |}.
Definition prof_unset : TwitterUser :=
  {| screen_name := "bob"; user_name := "Bob"; profile_background_color := "000000" |}.

(** A user lookup answering every id with one profile. *)
Definition lookup_all (p : TwitterUser) (uid : Z) : result (list TwitterUser) := Ok [p].

(** A user lookup answering no profile at all. *)
Definition lookup_none (uid : Z) : result (list TwitterUser) := Ok [].

(** An RNG whose k-th draw is (k, k, k). *)
Definition rng_seq (k : nat) : Z * Z * Z := (Z.of_nat k, Z.of_nat k, Z.of_nat k).

(** A streamed post [i] by author [a] replying to [p]. *)
Definition post (i a p : Z) : Response RawTweet :=
  {| rate_limit_status := rl0;
     response := {| raw_id := i; author_id := Some a; raw_replied_to := Some p |} |}.

(** A conversion that copies the id and the replied-to id. *)
Definition try_into_copy (r : RawTweet) : result Tweet :=
  Ok {| id := raw_id r; in_reply_to_status_id := raw_replied_to r |}.

(** The scenario of the spec: root 100 by author 7; 200 by 1 and 201 by 2
    reply to 100, 300 by 1 replies to 200. *)
Definition thread : list (Response RawTweet) :=
  [post 200 1 100; post 201 2 100; post 300 1 200].

(** A profile whose declared color is too short to slice. *)
Definition prof_short : TwitterUser :=
  {| screen_name := "carol"; user_name := "Carol"; profile_background_color := "FFF" |}.

(** Author 7 has a well-formed profile, every other author [prof_short]. *)
Definition lookup_short (uid : Z) : result (list TwitterUser) :=
  if uid =? 7 then Ok [prof_c0deed] else Ok [prof_short].

(** A post without author id, and one whose conversion has no parent. *)
Definition post_anonymous (i p : Z) : Response RawTweet :=
  {| rate_limit_status := rl0;
     response := {| raw_id := i; author_id := None; raw_replied_to := Some p |} |}.
Definition post_orphan (i a : Z) : Response RawTweet :=
  {| rate_limit_status := rl0;
     response := {| raw_id := i; author_id := Some a; raw_replied_to := None |} |}.

(** An empty crawl state. *)
Definition st_empty : CrawlState := {| users := ∅; tweets := ∅; graph := graph_new |}.

(** The root post: created at [created] (nanoseconds), by author 7. *)
Definition root_at (created : Z) : RootTweet := {| created_at := created; root_user := Some 7 |}.
Definition show_at (created : Z) (tid : Z) : result RootTweet := Ok (root_at created).

(** A single search page of raw posts. *)
Definition page_raw (prev nx : Z) (items : list RawTweet) : Response (Page RawTweet) :=
  {| rate_limit_status := rl0;
     response := {| previous_cursor_id := prev; next_cursor_id := nx; into_inner := items |} |}.

(** The search answers [thread] in one page. *)
Definition endpoint_thread (c : Z) : result (Response (Page RawTweet)) :=
  if c =? -1 then Ok (page_raw 0 0 (map response thread)) else Err NotFoundError.

(** The search answers with a response lacking its pagination metadata. *)
Definition endpoint_malformed (c : Z) : result (Response (Page RawTweet)) :=
  Err MalformedResponseError.

End Fixtures.

Module ExtraFixtures.
Import SearchCursor Crawl Args CursorConfig Fixtures.

(** An environment that sets only [TWITTER_CONSUMER_KEY]. *)
Definition env_key (v : string) : option string :=
  if String.eqb v "TWITTER_CONSUMER_KEY" then Some "ck-env" else None.

(** Search parameters with a query and a count of their own. *)
Definition params_query : ParamList :=
  <["query" := "conversation_id:100"]> (<["count" := "10"]> ∅).

(** A cursor in the middle of a crawl: token 42 pending, page drained. *)
Definition cursor_mid : SearchCursorIter (Item := Z) :=
  {| previous_cursor := 5; next_cursor := 42; loader := None; iter := Some [] |}.

(** A configured search with and without an explicit page size. *)
Definition search_sized : CursorIter Z :=
  {| link := "https://api.twitter.com/1.1/search/tweets.json";
     params_base := Some params_query; page_size := Some 50; cursor := cursor_mid |}.
Definition search_unsized : CursorIter Z :=
  {| link := "https://api.twitter.com/1.1/search/tweets.json";
     params_base := Some params_query; page_size := None; cursor := cursor_mid |}.

(** An endpoint that always fails. *)
Definition endpoint_down (c : Z) : result (Response (Page Z)) := Err TransportError.

(** An endpoint whose first page is empty and final. *)
Definition endpoint_empty_last (c : Z) : result (Response (Page Z)) :=
  if c =? -1 then Ok (page 3 0 []) else Err TransportError.

(** A conversion that always fails. *)
Definition try_into_fail (r : RawTweet) : result Tweet := Err MalformedResponseError.

(** A root post without author. *)
Definition show_anon (tid : Z) : result RootTweet :=
  Ok {| created_at := 0; root_user := None |}.

(** The user built from [prof_c0deed] at the first draw. *)
Definition user_alice : User :=
  {| handle := "alice"; name := "Alice"; color := (192, 222, 237) |}.

End ExtraFixtures.

(** * Properties *)

Module MonadFacts.

Lemma outcome_bind {A B} (m : M A) (k : A -> M B) n :
  outcome (mbind m k n) =
  match outcome (m n) with
  | ROk a => outcome (k a (rng_after (m n)))
  | RErr e => RErr e
  | RPanic p => RPanic p
  | RFuel => RFuel
  end.
Proof. unfold mbind. destruct (outcome (m n)); reflexivity. Qed.

End MonadFacts.

Module CursorFacts.
Import SearchCursor MonadFacts.

Section Facts.
Context {Item : Type}.
Variable e : Z -> result (Response (Page Item)).

Lemma set_iter_set_iter (st : SearchCursorIter (Item:=Item)) a b :
  set_iter (set_iter st a) b = set_iter st b.
Proof. destruct st; reflexivity. Qed.

Lemma set_iter_same (st : SearchCursorIter (Item:=Item)) :
  set_iter st (iter st) = st.
Proof. destruct st; reflexivity. Qed.

Lemma poll_next_item st x xs n :
  loader st = None -> iter st = Some (x :: xs) ->
  poll_next e st n = mkRun (ROk (set_iter st (Some xs), Some (Ok x))) n [].
Proof. intros Hl Hi. unfold poll_next. rewrite Hl, Hi. reflexivity. Qed.

Lemma poll_next_reload st n :
  loader st = None ->
  (iter st = None \/ (iter st = Some [] /\ next_cursor st <> 0)) ->
  poll_next e st n =
  let r := poll_loaded (set_loader st None) (e (next_cursor st)) n in
  mkRun (outcome r) (rng_after r) (EvPageRequest (next_cursor st) :: trace r).
Proof.
  intros Hl Hi. unfold poll_next. rewrite Hl.
  destruct Hi as [-> | [-> Hc]].
  - reflexivity.
  - rewrite (proj2 (Z.eqb_neq _ _) Hc). reflexivity.
Qed.

Lemma collect_item st x xs fuel n :
  loader st = None -> iter st = Some (x :: xs) ->
  outcome (collect e (S fuel) st n) =
  match outcome (collect e fuel (set_iter st (Some xs)) n) with
  | ROk l => ROk (x :: l)
  | RErr er => RErr er
  | RPanic p => RPanic p
  | RFuel => RFuel
  end.
Proof.
  intros Hl Hi. cbn [collect]. rewrite outcome_bind, (poll_next_item st x xs n Hl Hi).
  cbn [outcome rng_after]. cbv beta iota. rewrite outcome_bind. destruct (outcome (collect e fuel _ n)); reflexivity.
Qed.

(** Draining the buffered items, then continuing as [K] says. *)
Lemma collect_drain (K : list (Response Item)) rest :
  forall st fuel n,
  loader st = None -> iter st = Some rest ->
  (forall fuel' n', (length K < fuel')%nat ->
     outcome (collect e fuel' (set_iter st (Some [])) n') = ROk K) ->
  (length rest + length K < fuel)%nat ->
  outcome (collect e fuel st n) = ROk (rest ++ K).
Proof.
  induction rest as [|x xs IH]; intros st fuel n Hl Hi HK Hf.
  - rewrite <- Hi, set_iter_same in HK. apply HK. simpl in Hf. lia.
  - destruct fuel as [|fuel]; [simpl in Hf; lia|].
    rewrite (collect_item st x xs fuel n Hl Hi).
    rewrite (IH (set_iter st (Some xs)) fuel n).
    + reflexivity.
    + destruct st; exact Hl.
    + reflexivity.
    + intros fuel' n' Hf'. rewrite set_iter_set_iter. apply HK. exact Hf'.
    + simpl in Hf. lia.
Qed.

(** Loading the page the chain answers for the current cursor. *)
Lemma collect_chain ps :
  forall c st fuel n,
  chain e c ps -> next_cursor st = c -> loader st = None ->
  (iter st = None \/ (iter st = Some [] /\ c <> 0)) ->
  (length (flat_until_empty ps) < fuel)%nat ->
  outcome (collect e fuel st n) = ROk (flat_until_empty ps).
Proof.
  induction ps as [|p ps IH]; intros c st fuel n Hch Hc Hl Hi Hf; [destruct Hch|].
  destruct Hch as [Hp Hrest].
  destruct fuel as [|fuel]; [simpl in Hf; lia|].
  cbn [collect]. rewrite outcome_bind.
  rewrite (poll_next_reload st n Hl); [|subst c; exact Hi].
  rewrite Hc, Hp. cbn [outcome rng_after].
  unfold poll_loaded. cbn [flat_until_empty]. unfold page_items in *.
  destruct (into_inner (response p)) as [|x xs] eqn:Hitems.
  - reflexivity.
  - cbn [map outcome rng_after mret]. cbv beta iota. rewrite outcome_bind.
    rewrite (collect_drain (flat_until_empty ps)
      (map (fun item => {| rate_limit_status := rate_limit_status p; response := item |}) xs)).
    + reflexivity.
    + reflexivity.
    + reflexivity.
    + intros fuel' n' Hf'.
      destruct ps as [|p' ps'].
      * destruct fuel' as [|fuel']; [simpl in Hf'; lia|].
        cbn [collect]. rewrite outcome_bind. unfold poll_next. cbn.
        rewrite Hrest. reflexivity.
      * destruct Hrest as [Hnz Hch'].
        apply (IH (next_cursor_id (response p))); auto.
    + cbn [flat_until_empty] in Hf. unfold page_items in Hf. rewrite Hitems in Hf.
      cbn [map app length] in Hf. rewrite length_app, length_map in Hf.
      rewrite length_map. lia.
Qed.

Lemma flat_until_empty_full (pages : list (Response (Page Item))) :
  Forall (fun p => into_inner (response p) <> []) (removelast pages) ->
  flat_until_empty pages = flat_pages pages.
Proof.
  unfold flat_pages. induction pages as [|p ps IH]; intros Hne; [reflexivity|].
  destruct ps as [|p' ps'].
  - cbn. unfold page_items. destruct (into_inner (response p)); reflexivity.
  - cbn [removelast] in Hne. inversion Hne as [|? ? Hp Hrest]; subst.
    assert (E1 : flat_until_empty (p :: p' :: ps') = page_items p ++ flat_until_empty (p' :: ps')).
    { change (flat_until_empty (p :: p' :: ps')) with
        (match into_inner (response p) with
         | [] => [] | _ :: _ => page_items p ++ flat_until_empty (p' :: ps') end).
      destruct (into_inner (response p)); [congruence|reflexivity]. }
    rewrite E1, IH by exact Hrest. reflexivity.
Qed.

Lemma poll_next_ext (e2 : Z -> result (Response (Page Item))) :
  (forall c, e c = e2 c) -> forall st n, poll_next e st n = poll_next e2 st n.
Proof.
  intros He st n. unfold poll_next, call. cbv beta zeta.
  destruct (loader st); [reflexivity|].
  destruct (iter st) as [[|x xs]|]; [|reflexivity|].
  - destruct (next_cursor st =? 0); [reflexivity|]. rewrite He. reflexivity.
  - rewrite He. reflexivity.
Qed.

End Facts.

End CursorFacts.

Module CursorClaims.
Import SearchCursor Fixtures CursorFacts.

(** C1 (amended). Against a mock sequence of pages linked by continuation
    tokens from the first request (cursor -1) to a page with no token, the
    fetcher's flattened output is the concatenation of the pages' items in
    page order up to, not including, the first page without items, and the
    sequence then ends (the stream yields end-of-sequence). When no page
    before the last is empty this is the concatenation of all the pages,
    ending once the page without a token has been drained. *)
Theorem fetcher_output_until_empty_page {Item : Type}
    (e : Z -> result (Response (Page Item))) (pages : list (Response (Page Item)))
    (fuel n : nat) :
  chain e (-1) pages ->
  (length (flat_until_empty pages) < fuel)%nat ->
  outcome (collect e fuel new n) = ROk (flat_until_empty pages) /\
  (Forall (fun p => into_inner (response p) <> []) (removelast pages) ->
   flat_until_empty pages = flat_pages pages).
Proof.
  intros Hch Hf. split.
  - apply (collect_chain e pages (-1)); auto.
  - apply flat_until_empty_full.
Qed.

Lemma fetcher_output_until_empty_page_witness :
  chain endpoint_two (-1) pages_two /\
  (length (flat_until_empty pages_two) < 10)%nat /\
  (outcome (collect endpoint_two 10%nat new 0%nat) = ROk (flat_until_empty pages_two) /\
   (Forall (fun p => into_inner (response p) <> []) (removelast pages_two) ->
    flat_until_empty pages_two = flat_pages pages_two)).
Proof.
  assert (Hch : chain endpoint_two (-1) pages_two).
  { vm_compute. split; [reflexivity|]. split; [discriminate|].
    split; reflexivity. }
  assert (Hf : (length (flat_until_empty pages_two) < 10)%nat) by (vm_compute; lia).
  split; [exact Hch|]. split; [exact Hf|].
  exact (fetcher_output_until_empty_page endpoint_two pages_two 10%nat 0%nat Hch Hf).
Defined.

(** C1 counterexample: three pages linked by the tokens 5 and 6 whose
    middle page is empty. Whatever the fuel, the fetcher never outputs the
    concatenation [1; 2]: it stops at the empty page after [1]. *)
Lemma fetcher_gap_counterexample :
  chain endpoint_gap (-1) pages_gap /\
  forall fuel, outcome (collect endpoint_gap fuel new 0%nat) <> ROk (flat_pages pages_gap).
Proof.
  split.
  - vm_compute. split; [reflexivity|]. split; [discriminate|].
    split; [reflexivity|]. split; [discriminate|]. split; reflexivity.
  - intros [|[|fuel]]; vm_compute; discriminate.
Qed.

(** C2 (amended). A freshly requested page that has no items ends the
    sequence, whether or not it carries a continuation token: the consumer
    sees end-of-sequence after that one request and requests no further
    page. *)
Theorem empty_page_ends_stream {Item : Type}
    (e : Z -> result (Response (Page Item))) (st : SearchCursorIter) p (fuel n : nat) :
  loader st = None ->
  (iter st = None \/ (iter st = Some [] /\ next_cursor st <> 0)) ->
  e (next_cursor st) = Ok p ->
  into_inner (response p) = [] ->
  collect e (S fuel) st n = mkRun (ROk []) n [EvPageRequest (next_cursor st)].
Proof.
  intros Hl Hi Hp Hempty. cbn [collect]. unfold mbind at 1.
  rewrite (poll_next_reload e st n Hl Hi), Hp.
  cbv beta zeta. unfold poll_loaded. unfold mret at 1. rewrite Hempty. reflexivity.
Qed.

Lemma empty_page_ends_stream_witness :
  loader (@new Z) = None /\
  (iter (@new Z) = None \/ (iter (@new Z) = Some [] /\ next_cursor (@new Z) <> 0)) /\
  endpoint_empty_first (next_cursor (@new Z)) = Ok (page 0 5 []) /\
  into_inner (response (page 0 5 [])) = [] /\
  collect endpoint_empty_first 3%nat new 0%nat = mkRun (ROk []) 0%nat [EvPageRequest (next_cursor (@new Z))].
Proof.
  assert (H1 : loader (@new Z) = None) by reflexivity.
  assert (H2 : iter (@new Z) = None \/ (iter (@new Z) = Some [] /\ next_cursor (@new Z) <> 0))
    by (left; reflexivity).
  assert (H3 : endpoint_empty_first (next_cursor (@new Z)) = Ok (page 0 5 [])) by reflexivity.
  assert (H4 : into_inner (response (page 0 5 [])) = @nil Z) by reflexivity.
  split; [exact H1|]. split; [exact H2|]. split; [exact H3|]. split; [exact H4|].
  exact (empty_page_ends_stream endpoint_empty_first new (page 0 5 []) 2%nat 0%nat H1 H2 H3 H4).
Defined.

(** C2 counterexample: the first page is empty but carries the token 5;
    the consumer never requests the page for token 5. *)
Lemma empty_page_counterexample :
  endpoint_empty_first (-1) = Ok (page 0 5 []) /\
  forall fuel, ~ In (EvPageRequest 5) (trace (collect endpoint_empty_first fuel new 0%nat)).
Proof.
  split; [reflexivity|].
  intros [|fuel]; vm_compute; intuition discriminate.
Qed.

(** C8. Two fetchers built with [new] against equivalent endpoints (the
    same answer for every cursor) produce the same run: the same output,
    the same requests. *)
Theorem fetcher_deterministic {Item : Type} (e1 e2 : Z -> result (Response (Page Item))) :
  (forall c, e1 c = e2 c) ->
  forall fuel n, collect e1 fuel new n = collect e2 fuel new n.
Proof.
  intros He fuel. generalize (@new Item) as st.
  induction fuel as [|fuel IH]; intros st n; [reflexivity|].
  cbn [collect]. unfold mbind at 1 3. rewrite (poll_next_ext e1 e2 He st n).
  destruct (outcome (poll_next e2 st n)) as [[st' [[x|er]|]]| | |]; try reflexivity.
  unfold mbind. rewrite IH. reflexivity.
Qed.

Lemma fetcher_deterministic_witness :
  (forall c, endpoint_two c = endpoint_two' c) /\
  collect endpoint_two 10%nat new 0%nat = collect endpoint_two' 10%nat new 0%nat.
Proof.
  assert (He : forall c, endpoint_two c = endpoint_two' c).
  { intros c. unfold endpoint_two, endpoint_two'.
    destruct (Z.eqb_spec c (-1)); destruct (Z.eqb_spec c 5); subst; try lia; reflexivity. }
  split; [exact He|]. exact (fetcher_deterministic endpoint_two endpoint_two' He 10%nat 0%nat).
Defined.

End CursorClaims.

Module CrawlFacts.
Import SearchCursor Crawl MonadFacts.

Lemma bind_ok_inv {A B} (m : M A) (k : A -> M B) n b n' tr :
  mbind m k n = mkRun (ROk b) n' tr ->
  exists a, outcome (m n) = ROk a /\
    k a (rng_after (m n)) = mkRun (ROk b) n' (trace (k a (rng_after (m n)))) /\
    tr = trace (m n) ++ trace (k a (rng_after (m n))).
Proof.
  unfold mbind. destruct (outcome (m n)) as [a| | |] eqn:E; intros H; try discriminate.
  exists a. destruct (k a (rng_after (m n))) as [o r t]. cbn in *.
  injection H as -> -> <-. auto.
Qed.

Lemma lift_ok {A} (r : result A) n a :
  outcome (lift r n) = ROk a -> r = Ok a /\ rng_after (lift r n) = n.
Proof.
  destruct r as [a0|e]; unfold lift, mret, throw; cbn; intros H; [|discriminate H].
  injection H as ->. auto.
Qed.

Lemma slice_ok s i j n x :
  outcome (slice s i j n) = ROk x ->
  x = String.substring i (j - i) s /\ rng_after (slice s i j n) = n.
Proof.
  unfold slice, mret, panic.
  destruct ((i <=? j)%nat && is_char_boundary s i && is_char_boundary s j); cbn; intros H; [|discriminate H].
  injection H as ->. auto.
Qed.

Lemma to_digit16_range a x : to_digit16 a = Some x -> 0 <= x <= 15.
Proof.
  intros H. unfold to_digit16 in H. cbv zeta in H.
  repeat (match type of H with
          | context [if ?c then _ else _] => let E := fresh "E" in destruct c eqn:E
          end);
  try discriminate H; injection H as <-;
  match goal with
  | E : (_ && _) = true |- _ =>
      apply andb_true_iff in E; destruct E as [E1 E2];
      apply Z.leb_le in E1; apply Z.leb_le in E2; lia
  end.
Qed.

Lemma to_digit16_plus : to_digit16 "+"%char = None.
Proof. reflexivity. Qed.

Lemma to_digit16_minus : to_digit16 "-"%char = None.
Proof. reflexivity. Qed.

(** Two hex digits parse to their value. *)
Lemma u8_from_str_radix16_pair a b x y :
  to_digit16 a = Some x -> to_digit16 b = Some y ->
  u8_from_str_radix16 (String a (String b EmptyString)) = Ok (16 * x + y).
Proof.
  intros Ha Hb. pose proof (to_digit16_range a x Ha). pose proof (to_digit16_range b y Hb).
  unfold u8_from_str_radix16.
  assert (Hp : Ascii.eqb a "+"%char = false).
  { apply Ascii.eqb_neq. intros ->. rewrite to_digit16_plus in Ha. discriminate. }
  assert (Hm : Ascii.eqb a "-"%char = false).
  { apply Ascii.eqb_neq. intros ->. rewrite to_digit16_minus in Ha. discriminate. }
  rewrite Hp, Hm. cbn [orb andb]. cbn [u8_digits]. rewrite Ha.
  replace (0 * 16) with 0 by lia. replace (0 + x) with x by lia.
  rewrite (proj2 (Z.ltb_ge 255 0)) by lia. rewrite (proj2 (Z.ltb_ge 255 x)) by lia.
  rewrite Hb.
  rewrite (proj2 (Z.ltb_ge 255 (x * 16))) by lia.
  rewrite (proj2 (Z.ltb_ge 255 (x * 16 + y))) by lia.
  f_equal. lia.
Qed.

(** The parsing branch of [user_color]: each channel is
    [u8::from_str_radix] of the corresponding two-byte slice. *)
Lemma user_color_parsed rng c n col n' tr :
  c <> "000000"%string ->
  user_color rng c n = mkRun (ROk col) n' tr ->
  exists r g b, col = (r, g, b) /\
    u8_from_str_radix16 (String.substring 0 2 c) = Ok r /\
    u8_from_str_radix16 (String.substring 2 2 c) = Ok g /\
    u8_from_str_radix16 (String.substring 4 2 c) = Ok b.
Proof.
  intros Hc H. unfold user_color in H.
  destruct (String.eqb_spec c "000000") as [E|_]; [contradiction|]. cbn [negb] in H.
  apply bind_ok_inv in H as [s1 [Hs1 [H ?]]]. apply slice_ok in Hs1 as [-> Hn]. rewrite Hn in H.
  apply bind_ok_inv in H as [r [Hr [H ?]]]. apply lift_ok in Hr as [Hr Hn']. rewrite Hn' in H.
  apply bind_ok_inv in H as [s2 [Hs2 [H ?]]]. apply slice_ok in Hs2 as [-> Hn2]. rewrite Hn2 in H.
  apply bind_ok_inv in H as [g [Hg [H ?]]]. apply lift_ok in Hg as [Hg Hn3]. rewrite Hn3 in H.
  apply bind_ok_inv in H as [s3 [Hs3 [H ?]]]. apply slice_ok in Hs3 as [-> Hn4]. rewrite Hn4 in H.
  apply bind_ok_inv in H as [b [Hb [H ?]]]. apply lift_ok in Hb as [Hb Hn5]. rewrite Hn5 in H.
  unfold mret in H. injection H. intros. subst col.
  exists r, g, b. cbn [Nat.sub] in Hr, Hg, Hb. auto.
Qed.

(** A successful [User::new] stores the color its [user_color] computed
    from the looked-up profile. *)
Lemma user_new_color_of lookup rng uid n p ps u n' tr :
  lookup uid = Ok (p :: ps) ->
  user_new lookup rng uid n = mkRun (ROk u) n' tr ->
  exists tr', user_color rng (profile_background_color p) n = mkRun (ROk (color u)) n' tr'.
Proof.
  intros Hl H. unfold user_new in H.
  apply bind_ok_inv in H as [? [? [H ?]]]. cbn [emit rng_after] in H.
  apply bind_ok_inv in H as [us [Hus [H ?]]]. apply lift_ok in Hus as [Hus Hn].
  rewrite Hn in H. rewrite Hl in Hus. injection Hus as <-.
  apply bind_ok_inv in H as [user [Hu [H ?]]]. cbn in Hu. injection Hu as <-.
  cbn [unwrap head mret rng_after] in H.
  destruct (user_color rng (profile_background_color p) n) as [o n1 t1] eqn:Hc.
  unfold mbind in H. rewrite Hc in H. cbn [outcome rng_after trace] in H.
  destruct o as [col| | |]; try discriminate H.
  unfold mret in H. injection H. intros. subst. cbn [color]. eauto.
Qed.

Lemma run_eta {A} (r : run A) : mkRun (outcome r) (rng_after r) (trace r) = r.
Proof. destruct r; reflexivity. Qed.

Lemma bind_ok_run {A B} (m : M A) (k : A -> M B) n b n' tr :
  mbind m k n = mkRun (ROk b) n' tr ->
  exists a n1 tr1 tr2, m n = mkRun (ROk a) n1 tr1 /\ k a n1 = mkRun (ROk b) n' tr2 /\
                       tr = tr1 ++ tr2.
Proof.
  unfold mbind. destruct (m n) as [o n1 tr1] eqn:Hm. cbn.
  destruct o as [a| | |]; intros H; try discriminate H.
  destruct (k a n1) as [o2 n2 tr2] eqn:Hk. cbn in H. injection H as -> -> <-.
  exists a, n1, tr1, tr2. auto.
Qed.

Lemma trace_bind {A B} (m : M A) (k : A -> M B) n :
  trace (mbind m k n) =
  trace (m n) ++ match outcome (m n) with
                 | ROk a => trace (k a (rng_after (m n)))
                 | _ => []
                 end.
Proof.
  unfold mbind. destruct (outcome (m n)); cbn; rewrite ?app_nil_r; reflexivity.
Qed.

Section Builder.
Variable lookup : Z -> result (list TwitterUser).
Variable try_into : RawTweet -> result Tweet.
Variable rng : nat -> Z * Z * Z.

Lemma user_color_trace c n : trace (user_color rng c n) = [].
Proof.
  unfold user_color. destruct (negb _); [|reflexivity].
  rewrite !trace_bind. unfold slice, lift.
  repeat (match goal with
          | |- context [if ?b then _ else _] => destruct b
          | |- context [match ?r with Ok _ => _ | Err _ => _ end] => destruct r
          end; cbn; rewrite ?trace_bind; cbn); reflexivity.
Qed.

Lemma user_new_trace uid n : trace (user_new lookup rng uid n) = [EvUserLookup uid].
Proof.
  unfold user_new. rewrite trace_bind. cbn. rewrite trace_bind.
  destruct (lookup uid) as [us|e]; cbn; [|reflexivity].
  rewrite trace_bind. destruct (head us) as [p|]; cbn; [|reflexivity].
  rewrite trace_bind, user_color_trace. cbn.
  destruct (outcome (user_color rng _ n)); reflexivity.
Qed.

Lemma resolve_author_ok us a n us' n' tr :
  resolve_author lookup rng us a n = mkRun (ROk us') n' tr ->
  (forall b, reply_count us' b = (reply_count us b + if decide (b = a) then 1 else 0)%nat) /\
  (forall b, is_Some (us' !! b) <-> b = a \/ is_Some (us !! b)) /\
  tr = match us !! a with Some _ => [] | None => [EvUserLookup a] end.
Proof.
  unfold resolve_author. intros H.
  apply bind_ok_run in H as [us1 [n1 [tr1 [tr2 [H1 [H2 ->]]]]]].
  unfold mret in H2. injection H2 as <- -> <-. rewrite app_nil_r.
  assert (Hus1 : (us1 = us /\ is_Some (us !! a) /\ tr1 = []) \/
                 (exists u, us1 = <[a := (u, 0%nat)]> us /\ us !! a = None /\
                            tr1 = [EvUserLookup a])).
  { destruct (us !! a) as [x|] eqn:E.
    - unfold mret in H1. injection H1 as <- _ <-. left. eauto.
    - apply bind_ok_run in H1 as [u [n2 [tr3 [tr4 [H3 [H4 ->]]]]]].
      unfold mret in H4. injection H4 as <- _ <-.
      pose proof (user_new_trace a n) as Ht. rewrite H3 in Ht. cbn in Ht. subst tr3.
      right. exists u. auto. }
  destruct Hus1 as [[-> [[x Hx] ->]] | [u [-> [Hn ->]]]].
  - rewrite Hx. split; [|split; [|reflexivity]].
    + intros b. unfold reply_count. destruct (decide (b = a)) as [->|Hne].
      * rewrite lookup_alter_eq, Hx. destruct x; cbn. lia.
      * rewrite lookup_alter_ne by congruence. lia.
    + intros b. destruct (decide (b = a)) as [->|Hne].
      * rewrite lookup_alter_eq, Hx. cbn. split; [intros _; left; reflexivity|eauto].
      * rewrite lookup_alter_ne by congruence. naive_solver.
  - rewrite Hn. split; [|split; [|reflexivity]].
    + intros b. unfold reply_count. destruct (decide (b = a)) as [->|Hne].
      * rewrite lookup_alter_eq, lookup_insert_eq, Hn. cbn. lia.
      * rewrite lookup_alter_ne, lookup_insert_ne by congruence. lia.
    + intros b. destruct (decide (b = a)) as [->|Hne].
      * rewrite lookup_alter_eq, lookup_insert_eq. cbn. split; [intros _; left; reflexivity|eauto].
      * rewrite lookup_alter_ne, lookup_insert_ne by congruence. naive_solver.
Qed.

Lemma bind_ret {A B} (a : A) (k : A -> M B) n : mbind (mret a) k n = k a n.
Proof. unfold mbind, mret. cbn. apply run_eta. Qed.

Lemma process_ok st t n st' n' tr :
  process lookup try_into rng st t n = mkRun (ROk st') n' tr ->
  exists a us tw prev,
    author_id (response t) = Some a /\
    resolve_author lookup rng (users st) a n = mkRun (ROk us) n' tr /\
    try_into (response t) = Ok tw /\ in_reply_to_status_id tw = Some prev /\
    st' = {| users := us; tweets := <[id tw := a]> (tweets st);
             graph := add_edge prev (id tw) a (graph st) |}.
Proof.
  unfold process. intros H.
  apply bind_ok_run in H as [a [n1 [tr1 [tr2 [H1 [H2 ->]]]]]].
  destruct (author_id (response t)) as [a0|] eqn:Ea; cbn in H1; [|discriminate H1].
  injection H1; intros; subst.
  apply bind_ok_run in H2 as [us [n2 [tr3 [tr4 [H3 [H4 ->]]]]]].
  apply bind_ok_run in H4 as [tw [n3 [tr5 [tr6 [H5 [H6 ->]]]]]].
  destruct (try_into (response t)) as [tw0|e] eqn:Et; cbn in H5; [|discriminate H5].
  injection H5; intros; subst.
  apply bind_ok_run in H6 as [prev [n4 [tr7 [tr8 [H7 [H8 ->]]]]]].
  destruct (in_reply_to_status_id tw) as [p0|] eqn:Ep; cbn in H7; [|discriminate H7].
  injection H7; intros; subst. cbn in H8. injection H8; intros; subst.
  exists a, us, tw, prev. rewrite !app_nil_r. cbn. auto.
Qed.

Lemma consume_nil fuel st n :
  consume lookup try_into rng poll_list (S fuel) [] st n = mkRun (ROk st) n [].
Proof. cbn [consume poll_list]. rewrite bind_ret. reflexivity. Qed.

Lemma consume_cons fuel t rest st n :
  consume lookup try_into rng poll_list (S fuel) (t :: rest) st n =
  mbind (process lookup try_into rng st t)
        (fun st' => consume lookup try_into rng poll_list fuel rest st') n.
Proof. cbn [consume poll_list]. rewrite bind_ret. cbn [lift]. rewrite bind_ret. reflexivity. Qed.

Lemma posts_by_cons b t l :
  posts_by b (t :: l) =
  ((if decide (author_id (response t) = Some b) then 1 else 0) + posts_by b l)%nat.
Proof. unfold posts_by. rewrite filter_cons. destruct (decide _); reflexivity. Qed.

Lemma lookups_app b x y : lookups b (x ++ y) = (lookups b x + lookups b y)%nat.
Proof. unfold lookups. rewrite filter_app, length_app. reflexivity. Qed.

Lemma lookups_one b a : lookups b [EvUserLookup a] = if decide (b = a) then 1%nat else 0%nat.
Proof.
  unfold lookups. rewrite filter_cons, filter_nil.
  destruct (decide (EvUserLookup a = EvUserLookup b)) as [E|E];
  destruct (decide (b = a)); try reflexivity; [injection E; intros; congruence|congruence].
Qed.

Lemma opt_match_iff {A B} (o1 : option A) (o2 : option B) (x y : nat) :
  (is_Some o1 <-> is_Some o2) ->
  match o1 with Some _ => x | None => y end = match o2 with Some _ => x | None => y end.
Proof. destruct o1, o2; intros [H1 H2]; auto; [destruct H1|destruct H2]; eauto; discriminate. Qed.

(** Per author: the reply count grows by the author's posts, the author is
    in the table iff it was or has posts, and [user::lookup] is called for
    it once iff it was absent and has posts. *)
Lemma consume_counts l :
  forall fuel st n st' n' tr,
  consume lookup try_into rng poll_list fuel l st n = mkRun (ROk st') n' tr ->
  forall b,
    reply_count (users st') b = (reply_count (users st) b + posts_by b l)%nat /\
    (is_Some (users st' !! b) <-> is_Some (users st !! b) \/ (0 < posts_by b l)%nat) /\
    lookups b tr = match users st !! b with
                   | Some _ => 0%nat
                   | None => if decide (0 < posts_by b l)%nat then 1%nat else 0%nat
                   end.
Proof.
  induction l as [|t rest IH]; intros fuel st n st' n' tr H b;
    (destruct fuel as [|fuel]; [discriminate H|]).
  - rewrite consume_nil in H. injection H; intros; subst.
    unfold posts_by, lookups. cbn. split; [lia|]. split; [intuition lia|].
    destruct (users st' !! b); reflexivity.
  - rewrite consume_cons in H.
    apply bind_ok_run in H as [st1 [n1 [tr1 [tr2 [H1 [H2 ->]]]]]].
    apply process_ok in H1 as [a [us [tw [prev [Ha [Hr [_ [_ ->]]]]]]]].
    apply resolve_author_ok in Hr as [Hc [Hs ->]].
    destruct (IH _ _ _ _ _ _ H2 b) as [IHc [IHs IHl]]. cbn [users] in IHc, IHs, IHl.
    rewrite posts_by_cons, Ha, lookups_app. rewrite IHc, Hc.
    destruct (decide (b = a)) as [->|Hne].
    + rewrite decide_True by reflexivity.
      split; [lia|]. split.
      * rewrite IHs, Hs. intuition lia.
      * destruct (Hs a) as [_ Hsa].
        assert (Hsome : is_Some (us !! a)) by (apply Hsa; left; reflexivity).
        destruct Hsome as [x Ex]. rewrite Ex in IHl. rewrite IHl.
        destruct (users st !! a); [reflexivity|].
        rewrite lookups_one, decide_True by reflexivity.
        rewrite decide_True by lia. reflexivity.
    + rewrite decide_False by congruence.
      split; [lia|]. split.
      * rewrite IHs, Hs. intuition congruence.
      * assert (Hl1 : lookups b (match users st !! a with Some _ => [] | None => [EvUserLookup a] end) = 0%nat).
        { destruct (users st !! a); [reflexivity|]. rewrite lookups_one, decide_False by congruence. reflexivity. }
        rewrite Hl1. cbn [Nat.add]. rewrite IHl. cbn [Nat.add].
        apply opt_match_iff. rewrite Hs. intuition congruence.
Qed.

Lemma init_ok root_tid root_uid n st n' tr :
  init lookup rng root_tid root_uid n = mkRun (ROk st) n' tr ->
  exists u, users st = {[root_uid := (u, 1%nat)]} /\
    tweets st = {[root_tid := root_uid]} /\
    graph st = add_node root_tid graph_new /\ tr = [EvUserLookup root_uid].
Proof.
  unfold init. intros H.
  apply bind_ok_run in H as [u [n1 [tr1 [tr2 [H1 [H2 ->]]]]]].
  pose proof (user_new_trace root_uid n) as Ht. rewrite H1 in Ht. cbn in Ht. subst tr1.
  unfold mret in H2. injection H2; intros; subst. exists u. rewrite app_nil_r. auto.
Qed.

End Builder.

End CrawlFacts.

Module CrawlClaims.
Import SearchCursor Crawl Fixtures MonadFacts CrawlFacts.

(** C9. When [User::new] succeeds for an author whose looked-up profile
    declares a background color other than the unset sentinel "000000",
    the stored color is that value parsed as an RGB hex triple: each channel
    is [u8::from_str_radix(_, 16)] of its two-character slice, so six hex
    digits give (16 h0 + h1, 16 h2 + h3, 16 h4 + h5). When the profile
    declares "000000", the stored color is the next triple drawn from the
    RNG. *)
Theorem user_new_color (lookup : Z -> result (list TwitterUser)) (rng : nat -> Z * Z * Z)
    (uid : Z) (n : nat) (p : TwitterUser) (ps : list TwitterUser) (u : User)
    (n' : nat) (tr : list event) :
  lookup uid = Ok (p :: ps) ->
  user_new lookup rng uid n = mkRun (ROk u) n' tr ->
  (profile_background_color p = "000000"%string -> color u = rng n) /\
  (profile_background_color p <> "000000"%string ->
   (exists r g b, color u = (r, g, b) /\
      u8_from_str_radix16 (String.substring 0 2 (profile_background_color p)) = Ok r /\
      u8_from_str_radix16 (String.substring 2 2 (profile_background_color p)) = Ok g /\
      u8_from_str_radix16 (String.substring 4 2 (profile_background_color p)) = Ok b) /\
   (forall c0 c1 c2 c3 c4 c5 rest x0 x1 x2 x3 x4 x5,
      profile_background_color p =
        String c0 (String c1 (String c2 (String c3 (String c4 (String c5 rest))))) ->
      to_digit16 c0 = Some x0 -> to_digit16 c1 = Some x1 -> to_digit16 c2 = Some x2 ->
      to_digit16 c3 = Some x3 -> to_digit16 c4 = Some x4 -> to_digit16 c5 = Some x5 ->
      color u = (16 * x0 + x1, 16 * x2 + x3, 16 * x4 + x5))).
Proof.
  intros Hl H. destruct (user_new_color_of lookup rng uid n p ps u n' tr Hl H) as [tr' Hc].
  split.
  - intros Hs. rewrite Hs in Hc. unfold user_color in Hc. cbn in Hc.
    injection Hc. intros. congruence.
  - intros Hs.
    destruct (user_color_parsed rng _ n (color u) n' tr' Hs Hc) as [r [g [b [Hcol [Hr [Hg Hb]]]]]].
    split; [exists r, g, b; auto|].
    intros c0 c1 c2 c3 c4 c5 rest x0 x1 x2 x3 x4 x5 Hstr H0 H1 H2 H3 H4 H5.
    rewrite Hstr in Hr, Hg, Hb. cbn [String.substring] in Hr, Hg, Hb.
    replace (String.substring 0 0 rest) with EmptyString in Hb by (destruct rest; reflexivity).
    rewrite (u8_from_str_radix16_pair c0 c1 x0 x1 H0 H1) in Hr.
    rewrite (u8_from_str_radix16_pair c2 c3 x2 x3 H2 H3) in Hg.
    rewrite (u8_from_str_radix16_pair c4 c5 x4 x5 H4 H5) in Hb.
    injection Hr as <-. injection Hg as <-. injection Hb as <-. exact Hcol.
Qed.

Lemma user_new_color_witness :
  lookup_all prof_c0deed 5 = Ok [prof_c0deed] /\
  user_new (lookup_all prof_c0deed) rng_seq 5 3%nat =
    mkRun (ROk {| handle := "alice"; name := "Alice"; color := (192, 222, 237) |})
          3%nat [EvUserLookup 5] /\
  ((profile_background_color prof_c0deed = "000000"%string ->
    color {| handle := "alice"; name := "Alice"; color := (192, 222, 237) |} = rng_seq 3%nat) /\
   (profile_background_color prof_c0deed <> "000000"%string ->
    (exists r g b, color {| handle := "alice"; name := "Alice"; color := (192, 222, 237) |} = (r, g, b) /\
       u8_from_str_radix16 (String.substring 0 2 (profile_background_color prof_c0deed)) = Ok r /\
       u8_from_str_radix16 (String.substring 2 2 (profile_background_color prof_c0deed)) = Ok g /\
       u8_from_str_radix16 (String.substring 4 2 (profile_background_color prof_c0deed)) = Ok b) /\
    (forall c0 c1 c2 c3 c4 c5 rest x0 x1 x2 x3 x4 x5,
       profile_background_color prof_c0deed =
         String c0 (String c1 (String c2 (String c3 (String c4 (String c5 rest))))) ->
       to_digit16 c0 = Some x0 -> to_digit16 c1 = Some x1 -> to_digit16 c2 = Some x2 ->
       to_digit16 c3 = Some x3 -> to_digit16 c4 = Some x4 -> to_digit16 c5 = Some x5 ->
       color {| handle := "alice"; name := "Alice"; color := (192, 222, 237) |} =
         (16 * x0 + x1, 16 * x2 + x3, 16 * x4 + x5)))).
Proof.
  assert (H1 : lookup_all prof_c0deed 5 = Ok [prof_c0deed]) by reflexivity.
  assert (H2 : user_new (lookup_all prof_c0deed) rng_seq 5 3%nat =
    mkRun (ROk {| handle := "alice"; name := "Alice"; color := (192, 222, 237) |})
          3%nat [EvUserLookup 5]) by (vm_compute; reflexivity).
  split; [exact H1|]. split; [exact H2|].
  exact (user_new_color (lookup_all prof_c0deed) rng_seq 5 3%nat prof_c0deed [] _ 3%nat _ H1 H2).
Defined.

End CrawlClaims.

Module GraphFacts.
Import SearchCursor Crawl CrawlFacts.

Lemma graph_fold_cons e es g : graph_fold (e :: es) g = graph_fold es (add_edge e.1.1 e.1.2 e.2 g).
Proof. reflexivity. Qed.

(** The edges of [graph_fold es g]: those of [g] and one per element of [es]. *)
Lemma graph_fold_edges es :
  forall g k, is_Some (edges (graph_fold es g) !! k) <->
              is_Some (edges g !! k) \/ exists e, e ∈ es /\ (e.1.1, e.1.2) = k.
Proof.
  induction es as [|e es IH]; intros g k.
  - split; [auto|]. intros [H|[e [He _]]]; [exact H|]. apply elem_of_nil in He. contradiction.
  - rewrite graph_fold_cons, IH. cbn [edges add_edge]. rewrite lookup_insert_is_Some'.
    setoid_rewrite elem_of_cons. naive_solver.
Qed.

(** The nodes of [graph_fold es g]: those of [g] and both ends of each edge. *)
Lemma graph_fold_nodes es :
  forall g x, x ∈ nodes (graph_fold es g) <->
              x ∈ nodes g \/ exists e, e ∈ es /\ (x = e.1.1 \/ x = e.1.2).
Proof.
  induction es as [|e es IH]; intros g x.
  - split; [auto|]. intros [H|[e [He _]]]; [exact H|]. apply elem_of_nil in He. contradiction.
  - rewrite graph_fold_cons, IH. cbn [nodes add_edge].
    rewrite !elem_of_union, !elem_of_singleton. setoid_rewrite elem_of_cons. naive_solver.
Qed.

Lemma length_filter_none {A} (P : A -> Prop) `{forall x, Decision (P x)} (L : list A) :
  (forall x, x ∈ L -> ~ P x) -> length (filter P L) = 0%nat.
Proof.
  induction L as [|a L IH]; intros Hn; [reflexivity|].
  rewrite filter_cons. destruct (decide (P a)) as [Ha|Ha].
  - exfalso. apply (Hn a); [apply list_elem_of_here|exact Ha].
  - apply IH. intros x Hx. apply Hn. apply list_elem_of_further. exact Hx.
Qed.

Lemma length_filter_unique {A} (P : A -> Prop) `{forall x, Decision (P x)} (L : list A) y :
  NoDup L -> y ∈ L -> P y -> (forall x, x ∈ L -> P x -> x = y) ->
  length (filter P L) = 1%nat.
Proof.
  induction L as [|a L IH]; intros Hnd Hy Py Hu; [apply elem_of_nil in Hy; contradiction|].
  apply NoDup_cons in Hnd as [Ha Hnd].
  rewrite filter_cons. destruct (decide (P a)) as [Pa|Pa].
  - assert (a = y) as -> by (apply Hu; [apply list_elem_of_here|exact Pa]).
    cbn. f_equal. apply length_filter_none. intros x Hx Px.
    assert (x = y) as <- by (apply Hu; [apply list_elem_of_further; exact Hx|exact Px]).
    exact (Ha Hx).
  - apply elem_of_cons in Hy as [->|Hy]; [contradiction|].
    apply IH; auto. intros x Hx Px. apply Hu; [apply list_elem_of_further|]; assumption.
Qed.

Lemma NoDup_map_eq {A B} (f : A -> B) (l : list A) x y :
  NoDup (map f l) -> x ∈ l -> y ∈ l -> f x = f y -> x = y.
Proof.
  induction l as [|a l IH]; intros Hnd Hx Hy E; [apply elem_of_nil in Hx; contradiction|].
  cbn in Hnd. apply NoDup_cons in Hnd as [Ha Hnd].
  assert (Hm : forall z, z ∈ l -> f z <> f a).
  { intros z Hz Ez. apply Ha. rewrite <- Ez. apply list_elem_of_In, in_map, list_elem_of_In, Hz. }
  apply elem_of_cons in Hx as [->|Hx]; apply elem_of_cons in Hy as [->|Hy]; auto.
  - exfalso. apply (Hm y Hy). congruence.
  - exfalso. apply (Hm x Hx). congruence.
Qed.

(** The reply graph built from a root and edges whose children are
    distinct, differ from the root, and whose parents are the root or a
    child: the root has no incoming edge, every other node exactly one. *)
Lemma graph_fold_in_degree root es :
  let G := graph_fold es (add_node root graph_new) in
  NoDup (map (fun e : Z * Z * Z => e.1.2) es) ->
  root ∉ map (fun e : Z * Z * Z => e.1.2) es ->
  (forall e, e ∈ es -> e.1.1 = root \/ e.1.1 ∈ map (fun e : Z * Z * Z => e.1.2) es) ->
  in_degree G root = 0%nat /\
  (forall x, x ∈ nodes G -> x <> root -> in_degree G x = 1%nat).
Proof.
  intros G Hnd Hr Hp.
  assert (HE : forall k, k ∈ elements (dom (edges G)) <-> exists e, e ∈ es /\ (e.1.1, e.1.2) = k).
  { intros k. rewrite elem_of_elements, elem_of_dom. unfold G. rewrite graph_fold_edges.
    cbn [edges add_node graph_new]. rewrite lookup_empty. split; [intros [[? H]|H]; [discriminate|exact H]|auto]. }
  unfold in_degree. split.
  - apply length_filter_none. intros k Hk Ek. apply HE in Hk as [e [He <-]]. cbn in Ek.
    apply Hr. rewrite <- Ek. apply list_elem_of_In, (in_map (fun e : Z * Z * Z => e.1.2)), list_elem_of_In, He.
  - intros x Hx Hne.
    assert (Hc : exists e0, e0 ∈ es /\ e0.1.2 = x).
    { unfold G in Hx. apply graph_fold_nodes in Hx as [Hx|[e [He [->| ->]]]].
      - cbn in Hx. apply elem_of_union in Hx as [Hx|Hx]; [apply elem_of_singleton in Hx; contradiction|].
        apply elem_of_empty in Hx. contradiction.
      - destruct (Hp e He) as [|Hm]; [contradiction|].
        apply list_elem_of_In, in_map_iff in Hm as [e0 [E0 Hin]]. exists e0. split; [apply list_elem_of_In, Hin|exact E0].
      - exists e. auto. }
    destruct Hc as [e0 [He0 <-]].
    apply (length_filter_unique _ _ (e0.1.1, e0.1.2)).
    + apply NoDup_elements.
    + apply HE. eauto.
    + reflexivity.
    + intros k Hk Ek. apply HE in Hk as [e [He <-]]. cbn in Ek.
      rewrite (NoDup_map_eq _ _ e e0 Hnd He He0 Ek). reflexivity.
Qed.

Section Consume.
Variable lookup : Z -> result (list TwitterUser).
Variable try_into : RawTweet -> result Tweet.
Variable rng : nat -> Z * Z * Z.

(** A completed run of the loop adds to the graph exactly the edges of the
    streamed posts, in stream order. *)
Lemma consume_graph l :
  forall fuel st n st' n' tr,
  consume lookup try_into rng poll_list fuel l st n = mkRun (ROk st') n' tr ->
  exists es, Forall2 (edge_of try_into) l es /\ graph st' = graph_fold es (graph st).
Proof.
  induction l as [|t rest IH]; intros fuel st n st' n' tr H;
    (destruct fuel as [|fuel]; [discriminate H|]).
  - rewrite consume_nil in H. injection H; intros; subst. exists []. split; [constructor|reflexivity].
  - rewrite consume_cons in H.
    apply bind_ok_run in H as [st1 [n1 [tr1 [tr2 [H1 [H2 ->]]]]]].
    apply process_ok in H1 as [a [us [tw [prev [Ha [_ [Ht [Hp ->]]]]]]]].
    destruct (IH _ _ _ _ _ _ H2) as [es [Hes Hg]].
    exists ((prev, id tw, a) :: es). split.
    + constructor; [|exact Hes]. split; [exact Ha|]. exists tw. auto.
    + rewrite Hg. reflexivity.
Qed.

End Consume.

(** The edges of a completed run, read off the converted posts. *)
Lemma edges_of_conversions (try_into : RawTweet -> result Tweet) l es tws :
  Forall2 (edge_of try_into) l es ->
  Forall2 (fun t tw => try_into (response t) = Ok tw) l tws ->
  map (fun e : Z * Z * Z => e.1.2) es = map id tws /\
  (forall e, e ∈ es -> exists tw, tw ∈ tws /\ in_reply_to_status_id tw = Some e.1.1).
Proof.
  intros Hes. revert tws. induction Hes as [|t e l es He Hes IH]; intros tws Htws;
    inversion Htws as [|t' tw l' tws' Ht Htws' E1 E2]; subst; [split; [reflexivity|]|].
  - intros e Hin. apply elem_of_nil in Hin. contradiction.
  - destruct He as [_ [tw0 [Ht0 [Hid Hrep]]]]. rewrite Ht0 in Ht. injection Ht as <-.
    destruct (IH _ Htws') as [Hm Hr]. cbn. rewrite Hm, Hid. split; [reflexivity|].
    intros e' Hin. apply elem_of_cons in Hin as [->|Hin].
    + exists tw0. split; [apply list_elem_of_here|exact Hrep].
    + destruct (Hr e' Hin) as [tw [Htw Hp]]. exists tw. split; [apply list_elem_of_further|]; assumption.
Qed.

End GraphFacts.

Module OrderFacts.
Import SearchCursor Crawl MonadFacts CrawlFacts GraphFacts.

Lemma bind_ok_intro {A B} (m : M A) (k : A -> M B) n a n1 tr1 b n2 tr2 :
  m n = mkRun (ROk a) n1 tr1 -> k a n1 = mkRun (ROk b) n2 tr2 ->
  mbind m k n = mkRun (ROk b) n2 (tr1 ++ tr2).
Proof. intros H1 H2. unfold mbind. rewrite H1. cbn. rewrite H2. reflexivity. Qed.

Lemma rng_free_mret {A} (a : A) : rng_free (mret a).
Proof. intros n. reflexivity. Qed.

Lemma rng_free_lift {A} (r : result A) : rng_free (lift r).
Proof. destruct r; intros n; reflexivity. Qed.

Lemma rng_free_slice s i j : rng_free (slice s i j).
Proof. unfold slice. destruct (_ && _ && _); intros n; reflexivity. Qed.

Lemma rng_free_bind {A B} (m : M A) (k : A -> M B) :
  rng_free m -> (forall a, rng_free (k a)) -> rng_free (mbind m k).
Proof.
  intros Hm Hk n. unfold mbind. rewrite (Hm n).
  pose proof (Hm 0%nat) as H0. destruct (m 0%nat) as [o n0 t0]. cbn in H0 |- *.
  injection H0 as ->.
  destruct o as [a| | |]; cbn; try reflexivity.
  rewrite (Hk a n). reflexivity.
Qed.

(** The parsing branch of [user_color] does not touch the RNG. *)
Lemma user_color_rng_free rng c : c <> "000000"%string -> rng_free (user_color rng c).
Proof.
  intros Hc. unfold user_color.
  destruct (String.eqb_spec c "000000") as [E|_]; [contradiction|]. cbn [negb].
  repeat (apply rng_free_bind; [first [apply rng_free_slice | apply rng_free_lift] | intros ?]).
  apply rng_free_mret.
Qed.

(** Whether [User::new] succeeds does not depend on the RNG position. *)
Lemma user_new_any lookup rng a n u n' tr m :
  user_new lookup rng a n = mkRun (ROk u) n' tr ->
  exists u' m' tr', user_new lookup rng a m = mkRun (ROk u') m' tr'.
Proof.
  intros H. pose proof H as Hc.
  destruct (lookup a) as [[|p ps]|e] eqn:El;
    [unfold user_new in H; rewrite El in H; discriminate H| |unfold user_new in H; rewrite El in H; discriminate H].
  destruct (user_new_color_of _ _ _ _ _ _ _ _ _ El Hc) as [tr0 Hc0]. clear Hc.
  assert (Hm : exists col m1 tr1, user_color rng (profile_background_color p) m = mkRun (ROk col) m1 tr1).
  { destruct (String.eqb_spec (profile_background_color p) "000000") as [Es|Es].
    - unfold user_color. rewrite Es. cbn. eauto.
    - rewrite (user_color_rng_free rng _ Es m).
      rewrite (user_color_rng_free rng _ Es n) in Hc0. injection Hc0 as Ho _ _.
      rewrite Ho. eauto. }
  destruct Hm as [col [m1 [tr1 Hm]]].
  do 3 eexists. unfold user_new.
  eapply bind_ok_intro; [reflexivity|].
  eapply bind_ok_intro; [rewrite El; reflexivity|].
  eapply bind_ok_intro; [reflexivity|].
  eapply bind_ok_intro; [exact Hm|]. reflexivity.
Qed.

Section Order.
Variable lookup : Z -> result (list TwitterUser).
Variable try_into : RawTweet -> result Tweet.
Variable rng : nat -> Z * Z * Z.

Lemma resolve_author_new us a n us' n' tr :
  resolve_author lookup rng us a n = mkRun (ROk us') n' tr ->
  is_Some (us !! a) \/ new_ok lookup rng a.
Proof.
  unfold resolve_author. intros H.
  destruct (us !! a) eqn:E; [left; eauto|right].
  apply bind_ok_run in H as [us1 [n1 [tr1 [tr2 [H1 _]]]]].
  apply bind_ok_run in H1 as [u [n2 [tr3 [tr4 [H3 _]]]]].
  exists n, u, n2, tr3. exact H3.
Qed.

Lemma resolve_author_succeeds us a n :
  is_Some (us !! a) \/ new_ok lookup rng a ->
  exists us' n' tr, resolve_author lookup rng us a n = mkRun (ROk us') n' tr.
Proof.
  intros Ha. unfold resolve_author.
  destruct (us !! a) eqn:E.
  - do 3 eexists. eapply bind_ok_intro; reflexivity.
  - destruct Ha as [[x Hx]|[n0 [u0 [n0' [tr0 Hu]]]]]; [congruence|].
    destruct (user_new_any _ _ _ _ _ _ _ n Hu) as [u [m [tr Hu']]].
    do 3 eexists. eapply bind_ok_intro; [|reflexivity].
    eapply bind_ok_intro; [exact Hu'|reflexivity].
Qed.

Lemma process_succeeds st t n :
  post_ok lookup try_into rng (users st) t ->
  exists st' n' tr, process lookup try_into rng st t n = mkRun (ROk st') n' tr.
Proof.
  intros [a [tw [p [Ha [Hu [Ht Hp]]]]]].
  destruct (resolve_author_succeeds (users st) a n Hu) as [us [n1 [tr1 Hr]]].
  do 3 eexists. unfold process. rewrite Ha.
  eapply bind_ok_intro; [reflexivity|].
  eapply bind_ok_intro; [exact Hr|].
  eapply bind_ok_intro; [rewrite Ht; reflexivity|]. cbv beta zeta. rewrite Hp.
  eapply bind_ok_intro; reflexivity.
Qed.

Lemma process_post_ok st t n st' n' tr :
  process lookup try_into rng st t n = mkRun (ROk st') n' tr ->
  post_ok lookup try_into rng (users st) t.
Proof.
  intros H. apply process_ok in H as [a [us [tw [p [Ha [Hr [Ht [Hp _]]]]]]]].
  exists a, tw, p. repeat split; auto. eapply resolve_author_new. exact Hr.
Qed.

Lemma post_ok_mono us us' t :
  (forall b, is_Some (us !! b) -> is_Some (us' !! b) \/ new_ok lookup rng b) ->
  post_ok lookup try_into rng us t -> post_ok lookup try_into rng us' t.
Proof.
  intros Hm [a [tw [p [Ha [Hu [Ht Hp]]]]]]. exists a, tw, p. repeat split; auto.
  destruct Hu as [Hu|Hu]; auto.
Qed.

(** A run of the loop over a list completes iff it has fuel for every
    post and the final poll, and every post can be processed given the
    users present before the loop. *)
Lemma consume_succeeds l :
  forall fuel st n, (length l < fuel)%nat ->
  Forall (post_ok lookup try_into rng (users st)) l ->
  exists st' n' tr, consume lookup try_into rng poll_list fuel l st n = mkRun (ROk st') n' tr.
Proof.
  induction l as [|t rest IH]; intros fuel st n Hf Hall;
    (destruct fuel as [|fuel]; [cbn in Hf; lia|]).
  - rewrite consume_nil. eauto.
  - rewrite consume_cons. apply Forall_cons in Hall as [Ht Hall].
    destruct (process_succeeds st t n Ht) as [st1 [n1 [tr1 Hp]]].
    pose proof Hp as Hp'. apply process_ok in Hp' as [a [us [tw [p [_ [Hr [_ [_ ->]]]]]]]].
    apply resolve_author_ok in Hr as [_ [Hs _]].
    destruct (IH fuel {| users := us; tweets := <[id tw := a]> (tweets st);
                         graph := add_edge p (id tw) a (graph st) |} n1) as [st' [n' [tr' Hc]]].
    + cbn in Hf. lia.
    + eapply Forall_impl; [exact Hall|]. intros t' Ht'. eapply post_ok_mono; [|exact Ht'].
      intros b Hb. left. cbn. apply Hs. right. exact Hb.
    + do 3 eexists. eapply bind_ok_intro; [exact Hp|exact Hc].
Qed.

Lemma consume_post_ok l :
  forall fuel st n st' n' tr,
  consume lookup try_into rng poll_list fuel l st n = mkRun (ROk st') n' tr ->
  (length l < fuel)%nat /\ Forall (post_ok lookup try_into rng (users st)) l.
Proof.
  induction l as [|t rest IH]; intros fuel st n st' n' tr H;
    (destruct fuel as [|fuel]; [discriminate H|]).
  - split; [cbn; lia|constructor].
  - rewrite consume_cons in H.
    apply bind_ok_run in H as [st1 [n1 [tr1 [tr2 [H1 [H2 _]]]]]].
    pose proof (process_post_ok _ _ _ _ _ _ H1) as Ht.
    destruct (IH _ _ _ _ _ _ H2) as [Hf Hall].
    split; [cbn; lia|]. constructor; [exact Ht|].
    apply process_ok in H1 as [a [us [tw [p [Ha [Hr [_ [_ ->]]]]]]]].
    apply resolve_author_ok in Hr as [_ [Hs _]].
    eapply Forall_impl; [exact Hall|]. intros t' Ht'. eapply post_ok_mono; [|exact Ht'].
    intros b Hb. cbn in Hb. apply Hs in Hb as [->|Hb]; [|left; exact Hb].
    destruct Ht as [a' [tw' [p' [Ha' [Hu _]]]]]. rewrite Ha in Ha'. injection Ha' as <-. exact Hu.
Qed.

(** [init] succeeds from any RNG position once it has from one; the
    table then has the same keys and the graph is the same. *)
Lemma init_any root_tid root_uid n st0 n0 tr0 m :
  init lookup rng root_tid root_uid n = mkRun (ROk st0) n0 tr0 ->
  exists st1 m1 tr1, init lookup rng root_tid root_uid m = mkRun (ROk st1) m1 tr1 /\
    (forall b, is_Some (users st1 !! b) <-> is_Some (users st0 !! b)) /\
    graph st1 = graph st0.
Proof.
  intros H. pose proof H as H'.
  unfold init in H'. apply bind_ok_run in H' as [u [n1 [tr1 [tr2 [Hu _]]]]].
  destruct (user_new_any _ _ _ _ _ _ _ m Hu) as [u' [m1 [tr' Hu']]].
  assert (Hi : init lookup rng root_tid root_uid m =
               mkRun (ROk {| users := {[root_uid := (u', 1%nat)]};
                             tweets := {[root_tid := root_uid]};
                             graph := add_node root_tid graph_new |}) m1 (tr' ++ [])).
  { unfold init. eapply bind_ok_intro; [exact Hu'|reflexivity]. }
  do 3 eexists. split; [exact Hi|].
  apply init_ok in H as [u0 [Hus [_ [Hg _]]]]. rewrite Hus, Hg. cbn [users graph].
  split; [|reflexivity]. intros b.
  destruct (decide (b = root_uid)) as [->|Hne].
  - rewrite !lookup_singleton_eq. split; eauto.
  - rewrite !lookup_singleton_ne by congruence. reflexivity.
Qed.

End Order.

Lemma edge_of_fun try_into t e1 e2 :
  edge_of try_into t e1 -> edge_of try_into t e2 -> e1 = e2.
Proof.
  destruct e1 as [[p1 c1] w1], e2 as [[p2 c2] w2]. cbn.
  intros [Ha1 [tw1 [Ht1 [Hi1 Hr1]]]] [Ha2 [tw2 [Ht2 [Hi2 Hr2]]]].
  rewrite Ht1 in Ht2. injection Ht2 as <-. cbn in *. congruence.
Qed.

(** The edges of a stream are those of its posts. *)
Lemma edges_elem try_into l es :
  Forall2 (edge_of try_into) l es ->
  forall e, e ∈ es <-> exists t, t ∈ l /\ edge_of try_into t e.
Proof.
  induction 1 as [|t e0 l es He Hes IH]; intros e.
  - split; [intros Hin; apply elem_of_nil in Hin; contradiction|].
    intros [t [Hin _]]. apply elem_of_nil in Hin. contradiction.
  - rewrite elem_of_cons, IH. split.
    + intros [->|[t' [Hin Ht']]]; [exists t; split; [apply list_elem_of_here|exact He]|].
      exists t'. split; [apply list_elem_of_further; exact Hin|exact Ht'].
    + intros [t' [Hin Ht']]. apply elem_of_cons in Hin as [->|Hin].
      * left. exact (edge_of_fun _ _ _ _ Ht' He).
      * right. eauto.
Qed.

Lemma graph_fold_lookup_none es :
  forall g k, (forall e, e ∈ es -> (e.1.1, e.1.2) <> k) ->
  edges (graph_fold es g) !! k = edges g !! k.
Proof.
  induction es as [|e es IH]; intros g k Hk; [reflexivity|].
  rewrite graph_fold_cons, IH.
  - cbn [edges add_edge]. apply lookup_insert_ne. apply Hk. apply list_elem_of_here.
  - intros e' He'. apply Hk. apply list_elem_of_further. exact He'.
Qed.

Lemma graph_fold_lookup_some es :
  forall g e, e ∈ es ->
  (forall e1 e2, e1 ∈ es -> e2 ∈ es -> (e1.1.1, e1.1.2) = (e2.1.1, e2.1.2) -> e1.2 = e2.2) ->
  edges (graph_fold es g) !! (e.1.1, e.1.2) = Some e.2.
Proof.
  induction es as [|e0 es IH]; intros g e He Hf; [apply elem_of_nil in He; contradiction|].
  rewrite graph_fold_cons.
  destruct (decide (Exists (fun e' : Z * Z * Z => (e'.1.1, e'.1.2) = (e.1.1, e.1.2)) es)) as [Hx|Hx].
  - apply Exists_exists in Hx as [e' [He' Ek]]. rewrite <- Ek.
    rewrite (IH _ e' He').
    + f_equal. apply Hf; [apply list_elem_of_further; exact He'|exact He|exact Ek].
    + intros e1 e2 H1 H2. apply Hf; apply list_elem_of_further; assumption.
  - rewrite graph_fold_lookup_none.
    + apply elem_of_cons in He as [->|He].
      * cbn [edges add_edge]. apply lookup_insert_eq.
      * exfalso. apply Hx. apply Exists_exists. eauto.
    + intros e' He' Ek. apply Hx. apply Exists_exists. eauto.
Qed.

(** Two edge lists with the same elements, in which an edge's endpoints
    determine its weight, give the same graph. *)
Lemma graph_fold_ext es es' g :
  (forall e, e ∈ es <-> e ∈ es') ->
  (forall e1 e2, e1 ∈ es -> e2 ∈ es -> (e1.1.1, e1.1.2) = (e2.1.1, e2.1.2) -> e1.2 = e2.2) ->
  graph_fold es g = graph_fold es' g.
Proof.
  intros Hs Hf.
  assert (Hf' : forall e1 e2, e1 ∈ es' -> e2 ∈ es' ->
                (e1.1.1, e1.1.2) = (e2.1.1, e2.1.2) -> e1.2 = e2.2).
  { intros e1 e2 H1 H2. apply Hf; apply Hs; assumption. }
  assert (Hn : nodes (graph_fold es g) = nodes (graph_fold es' g)).
  { apply set_eq. intros x. rewrite !graph_fold_nodes. setoid_rewrite Hs. reflexivity. }
  assert (He : edges (graph_fold es g) = edges (graph_fold es' g)).
  { apply map_eq. intros k.
    destruct (decide (Exists (fun e : Z * Z * Z => (e.1.1, e.1.2) = k) es)) as [Hx|Hx].
    - apply Exists_exists in Hx as [e [Hin <-]].
      rewrite (graph_fold_lookup_some es g e Hin Hf).
      rewrite (graph_fold_lookup_some es' g e (proj1 (Hs e) Hin) Hf'). reflexivity.
    - rewrite !graph_fold_lookup_none; [reflexivity| |].
      + intros e Hin Ek. apply Hx. apply Exists_exists. exists e. split; [apply Hs; exact Hin|exact Ek].
      + intros e Hin Ek. apply Hx. apply Exists_exists. eauto. }
  destruct (graph_fold es g) as [n1 e1], (graph_fold es' g) as [n2 e2].
  cbn in Hn, He. subst. reflexivity.
Qed.

End OrderFacts.

Module PanicFacts.
Import SearchCursor Crawl MonadFacts CrawlFacts OrderFacts.

Section Panics.
Variable P : PanicSite -> Prop.

Lemma only_panics_bind {A B} (m : M A) (k : A -> M B) :
  only_panics P m ->
  (forall a n n' tr, m n = mkRun (ROk a) n' tr -> only_panics P (k a)) ->
  only_panics P (mbind m k).
Proof.
  intros Hm Hk n p. unfold mbind. destruct (m n) as [o n1 tr1] eqn:E. cbn.
  destruct o as [a| | |]; cbn; intros H; try discriminate H.
  - exact (Hk a n n1 tr1 E n1 p H).
  - injection H as <-. apply (Hm n). rewrite E. reflexivity.
Qed.

Lemma only_panics_mret {A} (a : A) : only_panics P (mret a).
Proof. intros n p H. discriminate H. Qed.

Lemma only_panics_lift {A} (r : result A) : only_panics P (lift r).
Proof. destruct r; intros n p H; discriminate H. Qed.

Lemma only_panics_emit ev : only_panics P (emit ev).
Proof. intros n p H. discriminate H. Qed.

Lemma only_panics_unwrap {A} (o : option A) site :
  (o = None -> P site) -> only_panics P (unwrap o site).
Proof.
  destruct o; intros Hs n p H; [discriminate H|].
  cbn in H. injection H as <-. apply Hs. reflexivity.
Qed.

Lemma only_panics_slice s i j : P StrSliceOutOfRange -> only_panics P (slice s i j).
Proof.
  intros Hs n p. unfold slice. destruct (_ && _ && _); intros H; [discriminate H|].
  injection H as <-. exact Hs.
Qed.

Lemma only_panics_user_color rng c : P StrSliceOutOfRange -> only_panics P (user_color rng c).
Proof.
  intros Hs. unfold user_color. destruct (negb _).
  - repeat (apply only_panics_bind;
            [first [apply only_panics_slice; exact Hs | apply only_panics_lift] | intros ? ? ? ? _]).
    apply only_panics_mret.
  - intros n p H. discriminate H.
Qed.

(** [User::new] panics only by indexing an empty answer or slicing. *)
Lemma only_panics_user_new lookup rng a :
  P IndexOutOfBounds -> P StrSliceOutOfRange -> only_panics P (user_new lookup rng a).
Proof.
  intros Hi Hs. unfold user_new.
  apply only_panics_bind; [apply only_panics_emit|intros ? ? ? ? _].
  apply only_panics_bind; [apply only_panics_lift|intros ? ? ? ? _].
  apply only_panics_bind; [apply only_panics_unwrap; intros _; exact Hi|intros ? ? ? ? _].
  apply only_panics_bind; [apply only_panics_user_color; exact Hs|intros ? ? ? ? _].
  apply only_panics_mret.
Qed.

Lemma only_panics_resolve_author lookup rng us a :
  P IndexOutOfBounds -> P StrSliceOutOfRange -> only_panics P (resolve_author lookup rng us a).
Proof.
  intros Hi Hs. unfold resolve_author.
  apply only_panics_bind; [|intros ? ? ? ? _; apply only_panics_mret].
  destruct (us !! a); [apply only_panics_mret|].
  apply only_panics_bind; [apply only_panics_user_new; assumption|intros ? ? ? ? _].
  apply only_panics_mret.
Qed.

(** The loop body on a post carrying both ids panics only in [User::new]. *)
Lemma only_panics_process lookup try_into rng st t :
  P IndexOutOfBounds -> P StrSliceOutOfRange -> carries_ids try_into t ->
  only_panics P (process lookup try_into rng st t).
Proof.
  intros Hi Hs [[a Ha] Hp]. unfold process.
  apply only_panics_bind; [apply only_panics_unwrap; rewrite Ha; discriminate|intros ? ? ? ? _].
  apply only_panics_bind; [apply only_panics_resolve_author; assumption|intros ? ? ? ? _].
  apply only_panics_bind; [apply only_panics_lift|].
  intros tw nx nx' trx Htw. apply (f_equal outcome) in Htw. apply lift_ok in Htw as [Htw _].
  cbv beta zeta.
  apply only_panics_bind; [apply only_panics_unwrap|intros ? ? ? ? _; apply only_panics_mret].
  destruct (Hp tw Htw) as [q Hq]. rewrite Hq. discriminate.
Qed.

Lemma only_panics_consume lookup try_into rng l :
  P IndexOutOfBounds -> P StrSliceOutOfRange -> Forall (carries_ids try_into) l ->
  forall fuel st, only_panics P (consume lookup try_into rng poll_list fuel l st).
Proof.
  intros Hi Hs. induction 1 as [|t rest Ht Hrest IH]; intros [|fuel] st n p;
    try (intros H; discriminate H).
  rewrite consume_cons. revert n p.
  apply only_panics_bind; [apply only_panics_process; assumption|].
  intros st1 ? ? ? _. apply IH.
Qed.

End Panics.

Lemma bind_ok_then {A B} (m : M A) (k : A -> M B) n a n1 tr1 :
  m n = mkRun (ROk a) n1 tr1 -> outcome (mbind m k n) = outcome (k a n1).
Proof. intros H. unfold mbind. rewrite H. reflexivity. Qed.

End PanicFacts.

Module MainFacts.
Import SearchCursor Crawl MonadFacts CrawlFacts.

Lemma trace_split {X} (tr1 tr2 pre post : list X) ev :
  tr1 ++ tr2 = pre ++ ev :: post ->
  (exists k, tr1 = pre ++ ev :: k /\ post = k ++ tr2) \/ (exists pre2, tr2 = pre2 ++ ev :: post).
Proof.
  intros H. destruct (app_eq_app _ _ _ _ H) as [l [[H1 H2]|[H1 H2]]].
  - destruct l as [|y l].
    + right. exists []. symmetry. exact H2.
    + left. injection H2 as -> ->. exists l. auto.
  - right. exists l. exact H2.
Qed.

Lemma trace_one {X} (x ev : X) pre post :
  [x] = pre ++ ev :: post -> pre = [] /\ ev = x /\ post = [].
Proof.
  intros H. symmetry in H. destruct (app_eq_unit _ _ H) as [[-> H2]|[H1 H2]].
  - injection H2 as -> ->. auto.
  - discriminate H2.
Qed.

Lemma trace_none {X} (ev : X) pre post : [] <> pre ++ ev :: post.
Proof. destruct pre; discriminate. Qed.

Lemma poll_loaded_trace {Item} (st : SearchCursorIter (Item := Item)) fut n :
  trace (poll_loaded st fut n) = [].
Proof.
  unfold poll_loaded. destruct fut as [resp|e]; [|reflexivity].
  cbv zeta. destruct (map _ _); reflexivity.
Qed.

(** The request a [poll_next] issues when it needs a page. *)
Lemma reload_run {Item} (endpoint : Z -> result (Response (Page Item))) st n :
  mbind (call endpoint st) (fun fut => poll_loaded (set_loader st None) fut) n =
  mkRun (outcome (poll_loaded (set_loader st None) (endpoint (next_cursor st)) n))
        (rng_after (poll_loaded (set_loader st None) (endpoint (next_cursor st)) n))
        [EvPageRequest (next_cursor st)].
Proof.
  unfold mbind, call, emit, mret. cbn. rewrite poll_loaded_trace. reflexivity.
Qed.

Section Stops.
Variable failing : event -> Prop.

Lemma stops_bind {A B} (m : M A) (k : A -> M B) :
  stops_on_error failing m -> (forall a, stops_on_error failing (k a)) ->
  stops_on_error failing (mbind m k).
Proof.
  intros Hm Hk n pre ev post. unfold mbind.
  pose proof (Hm n) as Hmn. destruct (m n) as [o n1 tr1]. cbn in Hmn.
  destruct o as [a|e|p|]; cbn; intros Htr Hf.
  - apply trace_split in Htr as [[k0 [E1 E2]]|[pre2 E2]].
    + destruct (Hmn _ _ _ E1 Hf) as [_ []].
    + exact (Hk a n1 pre2 ev post E2 Hf).
  - destruct (Hmn _ _ _ Htr Hf) as [Hp _]. split; [exact Hp|exact I].
  - destruct (Hmn _ _ _ Htr Hf) as [_ []].
  - destruct (Hmn _ _ _ Htr Hf) as [_ []].
Qed.

Lemma stops_noevents {A} (m : M A) : (forall n, trace (m n) = []) -> stops_on_error failing m.
Proof. intros H n pre ev post Htr. rewrite H in Htr. destruct (trace_none _ _ _ Htr). Qed.

Lemma stops_mret {A} (a : A) : stops_on_error failing (mret a).
Proof. apply stops_noevents. reflexivity. Qed.

Lemma stops_lift {A} (r : result A) : stops_on_error failing (lift r).
Proof. apply stops_noevents. destruct r; reflexivity. Qed.

Lemma stops_unwrap {A} (o : option A) site : stops_on_error failing (unwrap o site).
Proof. apply stops_noevents. destruct o; reflexivity. Qed.

Lemma stops_emit ev : ~ failing ev -> stops_on_error failing (emit ev).
Proof.
  intros Hev n pre ev' post Htr Hf. apply trace_one in Htr as [_ [-> _]]. contradiction.
Qed.

(** A network call followed by [?] on its answer. *)
Lemma stops_emit_lift {A B} ev (r : result A) (k : A -> M B) :
  (failing ev <-> exists e, r = Err e) -> (forall a, stops_on_error failing (k a)) ->
  stops_on_error failing (mbind (emit ev) (fun _ => mbind (lift r) k)).
Proof.
  intros Hev Hk n pre ev' post. destruct r as [a|e].
  - unfold mbind, emit, lift, mret. cbn. intros Htr Hf.
    destruct pre as [|x pre]; cbn in Htr; injection Htr as E1 E2.
    + subst ev'. apply Hev in Hf as [e He]. discriminate He.
    + exact (Hk a n pre ev' post E2 Hf).
  - unfold mbind, emit, lift, throw. cbn. intros Htr _.
    apply trace_one in Htr as [_ [_ ->]]. split; [reflexivity|exact I].
Qed.

Section Crawl.
Variable lookup : Z -> result (list TwitterUser).
Variable try_into : RawTweet -> result Tweet.
Variable rng : nat -> Z * Z * Z.
Variable endpoint : Z -> result (Response (Page RawTweet)).
Hypothesis lookup_fails : forall uid, failing (EvUserLookup uid) <-> exists e, lookup uid = Err e.
Hypothesis page_fails : forall c, failing (EvPageRequest c) <-> exists e, endpoint c = Err e.

Lemma stops_user_new uid : stops_on_error failing (user_new lookup rng uid).
Proof.
  unfold user_new. apply stops_emit_lift; [apply lookup_fails|intros us].
  apply stops_bind; [apply stops_unwrap|intros u].
  apply stops_bind; [apply stops_noevents; intros n; apply user_color_trace|intros c].
  apply stops_mret.
Qed.

Lemma stops_init root_tid root_uid : stops_on_error failing (init lookup rng root_tid root_uid).
Proof. unfold init. apply stops_bind; [apply stops_user_new|intros u; apply stops_mret]. Qed.

Lemma stops_process st t : stops_on_error failing (process lookup try_into rng st t).
Proof.
  unfold process.
  apply stops_bind; [apply stops_unwrap|intros a].
  apply stops_bind; [|intros us].
  { unfold resolve_author. apply stops_bind; [|intros us'; apply stops_mret].
    destruct (users st !! a); [apply stops_mret|].
    apply stops_bind; [apply stops_user_new|intros u; apply stops_mret]. }
  apply stops_bind; [apply stops_lift|intros tw]. cbv beta zeta.
  apply stops_bind; [apply stops_unwrap|intros p]. apply stops_mret.
Qed.

(** [poll_next] either makes no failing call, or its last event is the
    failing page request, answered to the consumer as [Some(Err(e))]. *)
Lemma poll_next_stops s : poll_stops failing (poll_next endpoint s).
Proof.
  intros n pre ev post. unfold poll_next. cbv zeta.
  assert (Hre : forall st, trace (mbind (call endpoint st)
                      (fun fut => poll_loaded (set_loader st None) fut) n) = pre ++ ev :: post ->
                failing ev -> post = [] /\ exists s e,
                outcome (mbind (call endpoint st) (fun fut => poll_loaded (set_loader st None) fut) n)
                = ROk (s, Some (Err e))).
  { intros st Htr Hf. rewrite reload_run in Htr |- *. cbn in Htr |- *.
    apply trace_one in Htr as [_ [-> ->]]. apply page_fails in Hf as [e He].
    rewrite He. split; [reflexivity|]. eexists _, e. reflexivity. }
  destruct (loader s) as [fut|].
  - rewrite poll_loaded_trace. intros Htr. destruct (trace_none _ _ _ Htr).
  - destruct (iter s) as [[|x r]|]; [|intros Htr; destruct (trace_none _ _ _ Htr)|apply Hre].
    destruct (next_cursor s =? 0); [intros Htr; destruct (trace_none _ _ _ Htr)|apply Hre].
Qed.

Lemma stops_bind_poll {S X B} (m : M (S * option (result X))) (k : S * option (result X) -> M B) :
  poll_stops failing m ->
  (forall s e n, trace (k (s, Some (Err e)) n) = [] /\ is_err (outcome (k (s, Some (Err e)) n))) ->
  (forall x, stops_on_error failing (k x)) ->
  stops_on_error failing (mbind m k).
Proof.
  intros Hm Hk0 Hk n pre ev post. unfold mbind.
  pose proof (Hm n) as Hmn. destruct (m n) as [o n1 tr1]. cbn in Hmn.
  destruct o as [x|e|p|]; cbn; intros Htr Hf.
  - apply trace_split in Htr as [[k0 [E1 E2]]|[pre2 E2]].
    + destruct (Hmn _ _ _ E1 Hf) as [-> [s [e Hx]]]. injection Hx as ->.
      destruct (Hk0 s e n1) as [Ht He]. rewrite Ht in E2. split; [exact E2|exact He].
    + exact (Hk x n1 pre2 ev post E2 Hf).
  - destruct (Hmn _ _ _ Htr Hf) as [_ [? [? Hx]]]. discriminate Hx.
  - destruct (Hmn _ _ _ Htr Hf) as [_ [? [? Hx]]]. discriminate Hx.
  - destruct (Hmn _ _ _ Htr Hf) as [_ [? [? Hx]]]. discriminate Hx.
Qed.

Lemma stops_consume fuel :
  forall s st, stops_on_error failing (consume lookup try_into rng (poll_next endpoint) fuel s st).
Proof.
  induction fuel as [|fuel IH]; intros s st; [apply stops_noevents; reflexivity|].
  cbn [consume]. apply stops_bind_poll; [apply poll_next_stops| |].
  - intros s' e n. split; reflexivity.
  - intros [s' [[t|e]|]].
    + apply stops_bind; [apply stops_lift|intros t'].
      apply stops_bind; [apply stops_process|intros st']. apply IH.
    + apply stops_noevents. reflexivity.
    + apply stops_mret.
Qed.

End Crawl.
End Stops.

Section Emits.
Variable P : event -> Prop.

Lemma emits_bind {A B} (m : M A) (k : A -> M B) :
  emits_only P m -> (forall a, emits_only P (k a)) -> emits_only P (mbind m k).
Proof.
  intros Hm Hk n. unfold mbind. pose proof (Hm n) as Hmn.
  destruct (m n) as [o n1 tr1]. cbn in Hmn |- *.
  destruct o; cbn; try exact Hmn. apply Forall_app. split; [exact Hmn|apply Hk].
Qed.

Lemma emits_noevents {A} (m : M A) : (forall n, trace (m n) = []) -> emits_only P m.
Proof. intros H n. rewrite H. constructor. Qed.

Lemma emits_emit ev : P ev -> emits_only P (emit ev).
Proof. intros H n. constructor; [exact H|constructor]. Qed.

Section Crawl.
Variable lookup : Z -> result (list TwitterUser).
Variable try_into : RawTweet -> result Tweet.
Variable rng : nat -> Z * Z * Z.
Variable endpoint : Z -> result (Response (Page RawTweet)).
Hypothesis P_lookup : forall uid, P (EvUserLookup uid).
Hypothesis P_page : forall c, P (EvPageRequest c).

Lemma emits_user_new uid : emits_only P (user_new lookup rng uid).
Proof. intros n. rewrite user_new_trace. constructor; [apply P_lookup|constructor]. Qed.

Lemma emits_init root_tid root_uid : emits_only P (init lookup rng root_tid root_uid).
Proof. unfold init. apply emits_bind; [apply emits_user_new|intros u; apply emits_noevents; reflexivity]. Qed.

Lemma emits_process st t : emits_only P (process lookup try_into rng st t).
Proof.
  unfold process.
  apply emits_bind; [apply emits_noevents; intros n; destruct (author_id _); reflexivity|intros a].
  apply emits_bind; [|intros us].
  { unfold resolve_author. apply emits_bind; [|intros us'; apply emits_noevents; reflexivity].
    destruct (users st !! a); [apply emits_noevents; reflexivity|].
    apply emits_bind; [apply emits_user_new|intros u; apply emits_noevents; reflexivity]. }
  apply emits_bind; [apply emits_noevents; intros n; destruct (try_into _); reflexivity|intros tw].
  cbv beta zeta.
  apply emits_bind; [apply emits_noevents; intros n; destruct (in_reply_to_status_id _); reflexivity|].
  intros p. apply emits_noevents. reflexivity.
Qed.

Lemma emits_poll_next s : emits_only P (poll_next endpoint s).
Proof.
  intros n. unfold poll_next. cbv zeta.
  destruct (loader s) as [fut|]; [rewrite poll_loaded_trace; constructor|].
  destruct (iter s) as [[|x r]|]; [destruct (next_cursor s =? 0)| |];
    try (rewrite reload_run; constructor; [apply P_page|constructor]); constructor.
Qed.

Lemma emits_consume fuel :
  forall s st, emits_only P (consume lookup try_into rng (poll_next endpoint) fuel s st).
Proof.
  induction fuel as [|fuel IH]; intros s st; [apply emits_noevents; reflexivity|].
  cbn [consume]. apply emits_bind; [apply emits_poll_next|].
  intros [s' [[t|e]|]].
  - apply emits_bind; [apply emits_noevents; reflexivity|intros t'].
    apply emits_bind; [apply emits_process|intros st']. apply IH.
  - apply emits_noevents. reflexivity.
  - apply emits_noevents. reflexivity.
Qed.

End Crawl.
End Emits.

(** [main] unfolded up to the advisory: the rest of the run does not
    depend on the clock. *)
Lemma main_unfold lookup try_into rng bearer_token show endpoint root_tid now fuel n :
  main lookup try_into rng bearer_token show endpoint root_tid now fuel n =
  match bearer_token with
  | Err e => mkRun (RErr e) n [EvAuth]
  | Ok _ =>
      match show root_tid with
      | Err e => mkRun (RErr e) n [EvAuth; EvShowRoot]
      | Ok root =>
          let r := mbind (unwrap (root_user root) UnwrapRootUser)
                     (fun uid => mbind (init lookup rng root_tid uid)
                        (fun st => consume lookup try_into rng (poll_next endpoint) fuel new st)) n in
          mkRun (outcome r) (rng_after r)
                (EvAuth :: EvShowRoot ::
                 (if 7 <=? num_days (now - created_at root) then [EvAdvisory] else []) ++ trace r)
      end
  end.
Proof.
  unfold main. destruct bearer_token as [tk|e]; [|reflexivity].
  destruct (show root_tid) as [root|e]; [|reflexivity].
  unfold mbind at 1 2 3 4 5. cbn [emit lift mret outcome rng_after trace app].
  destruct (7 <=? num_days (now - created_at root)); reflexivity.
Qed.

(** [num_days] of a duration in nanoseconds is at least 7 iff the duration
    is at least 7 * 86400 seconds. *)
Lemma num_days_ge_7 d : 7 <= num_days d <-> 604800000000000 <= d.
Proof.
  unfold num_days. destruct (Z.le_gt_cases 0 d) as [Hd|Hd].
  - assert (Hq : 0 <= d / 1000000000) by (apply Z.div_pos; lia).
    rewrite (Z.quot_div_nonneg d) by lia.
    rewrite (Z.quot_div_nonneg (d / 1000000000)) by lia.
    split; intros H.
    + destruct (Z.le_gt_cases 604800000000000 d) as [|Hlt]; [assumption|exfalso].
      assert (H1 : d / 1000000000 < 604800) by (apply Z.div_lt_upper_bound; lia).
      assert (H2 : d / 1000000000 / 86400 < 7) by (apply Z.div_lt_upper_bound; lia).
      lia.
    + assert (H1 : 604800 <= d / 1000000000) by (apply Z.div_le_lower_bound; lia).
      apply Z.div_le_lower_bound; lia.
  - assert (H1 : Z.quot d 1000000000 <= 0).
    { replace d with (- (- d)) by lia. rewrite Z.quot_opp_l by lia.
      pose proof (Z.quot_pos (- d) 1000000000). lia. }
    assert (H2 : Z.quot (Z.quot d 1000000000) 86400 <= 0).
    { replace (Z.quot d 1000000000) with (- (- Z.quot d 1000000000)) by lia.
      rewrite Z.quot_opp_l by lia. pose proof (Z.quot_pos (- Z.quot d 1000000000) 86400). lia. }
    lia.
Qed.

End MainFacts.

Module BuilderClaims.
Import SearchCursor Crawl Fixtures MonadFacts CrawlFacts GraphFacts OrderFacts PanicFacts.

(** C4 (amended). After the builder has processed a stream to completion,
    every author that is the root post's author or has N >= 1 posts in the
    stream was looked up over the network exactly once, and its reply
    count is N, or N + 1 for the root post's author, whose entry starts at
    1 for the root post. *)
Theorem author_resolved_once_and_counted
    (lookup : Z -> result (list TwitterUser)) (try_into : RawTweet -> result Tweet)
    (rng : nat -> Z * Z * Z) (root_tid root_uid : Z) (l : list (Response RawTweet))
    (fuel n : nat) (st : CrawlState) (n' : nat) (tr : list event) (a : Z) :
  build lookup try_into rng root_tid root_uid l fuel n = mkRun (ROk st) n' tr ->
  (a = root_uid \/ (0 < posts_by a l)%nat) ->
  lookups a tr = 1%nat /\
  reply_count (users st) a = (posts_by a l + if decide (a = root_uid) then 1 else 0)%nat.
Proof.
  unfold build. intros H Ha.
  apply bind_ok_run in H as [st0 [n1 [tr1 [tr2 [H1 [H2 ->]]]]]].
  apply init_ok in H1 as [u [Hu [_ [_ ->]]]].
  destruct (consume_counts lookup try_into rng l _ _ _ _ _ _ H2 a) as [Hc [_ Hl]].
  rewrite lookups_app, lookups_one, Hl, Hc, Hu. unfold reply_count.
  destruct (decide (a = root_uid)) as [->|Hne].
  - rewrite lookup_singleton_eq. cbn. lia.
  - rewrite lookup_singleton_ne by congruence. destruct Ha as [|Hp]; [congruence|].
    rewrite decide_True by exact Hp. cbn. lia.
Qed.

Lemma author_resolved_once_and_counted_witness :
  match build (lookup_all prof_c0deed) try_into_copy rng_seq 100 7 thread 10 0%nat with
  | {| outcome := ROk st; rng_after := n'; trace := tr |} =>
      (1 = 7 \/ (0 < posts_by 1 thread)%nat) /\
      (lookups 1 tr = 1%nat /\
       reply_count (users st) 1 = (posts_by 1 thread + if decide (1 = 7) then 1 else 0)%nat)
  | _ => False
  end.
Proof.
  destruct (build (lookup_all prof_c0deed) try_into_copy rng_seq 100 7 thread 10 0%nat)
    as [[st| | |] n' tr] eqn:E; try (vm_compute in E; discriminate E).
  assert (Ha : 1 = 7 \/ (0 < posts_by 1 thread)%nat) by (right; vm_compute; lia).
  split; [exact Ha|].
  exact (author_resolved_once_and_counted _ _ _ 100 7 thread 10 0 st n' tr 1 E Ha).
Defined.

(** C4 counterexample: the root post's author (7) has N = 1 post in the
    stream but ends with reply count 2, not N. *)
Lemma root_author_count_counterexample :
  match outcome (build (lookup_all prof_c0deed) try_into_copy rng_seq 100 7
                   [post 200 7 100] 10 0%nat) with
  | ROk st => posts_by 7 [post 200 7 100] = 1%nat /\ reply_count (users st) 7 = 2%nat
  | _ => False
  end.
Proof. vm_compute. split; reflexivity. Qed.

(** C3 (amended). After the builder has processed a stream to completion,
    if the converted posts have distinct ids, none of them is the root
    post's id, and each replies to the root post or to another streamed
    post, then the root post has in-degree 0 in the reply graph and every
    other node has in-degree exactly 1. *)
Theorem reply_graph_in_degrees
    (lookup : Z -> result (list TwitterUser)) (try_into : RawTweet -> result Tweet)
    (rng : nat -> Z * Z * Z) (root_tid root_uid : Z) (l : list (Response RawTweet))
    (fuel n : nat) (st : CrawlState) (n' : nat) (tr : list event) (tws : list Tweet) :
  build lookup try_into rng root_tid root_uid l fuel n = mkRun (ROk st) n' tr ->
  Forall2 (fun t tw => try_into (response t) = Ok tw) l tws ->
  NoDup (map id tws) ->
  root_tid ∉ map id tws ->
  (forall tw p, tw ∈ tws -> in_reply_to_status_id tw = Some p -> p = root_tid \/ p ∈ map id tws) ->
  in_degree (graph st) root_tid = 0%nat /\
  (forall x, x ∈ nodes (graph st) -> x <> root_tid -> in_degree (graph st) x = 1%nat).
Proof.
  unfold build. intros H Htws Hnd Hr Hp.
  apply bind_ok_run in H as [st0 [n1 [tr1 [tr2 [H1 [H2 _]]]]]].
  apply init_ok in H1 as [_ [_ [_ [Hg0 _]]]].
  destruct (consume_graph _ _ _ _ _ _ _ _ _ _ H2) as [es [Hes Hg]].
  rewrite Hg, Hg0.
  destruct (edges_of_conversions _ _ _ _ Hes Htws) as [Hm He].
  apply graph_fold_in_degree; rewrite Hm; [exact Hnd|exact Hr|].
  intros e Hin. destruct (He e Hin) as [tw [Htw Hrep]]. exact (Hp tw _ Htw Hrep).
Qed.

Lemma reply_graph_in_degrees_witness :
  match build (lookup_all prof_c0deed) try_into_copy rng_seq 100 7 thread 10 0%nat with
  | {| outcome := ROk st; rng_after := n'; trace := tr |} =>
      in_degree (graph st) 100 = 0%nat /\
      (forall x, x ∈ nodes (graph st) -> x <> 100 -> in_degree (graph st) x = 1%nat)
  | _ => False
  end.
Proof.
  destruct (build (lookup_all prof_c0deed) try_into_copy rng_seq 100 7 thread 10 0%nat)
    as [[st| | |] n' tr] eqn:E; try (vm_compute in E; discriminate E).
  apply (reply_graph_in_degrees _ _ _ 100 7 thread 10 0%nat st n' tr
           [{| id := 200; in_reply_to_status_id := Some 100 |};
            {| id := 201; in_reply_to_status_id := Some 100 |};
            {| id := 300; in_reply_to_status_id := Some 200 |}] E).
  - repeat constructor.
  - apply (bool_decide_unpack _). vm_compute. reflexivity.
  - apply (bool_decide_unpack _). vm_compute. reflexivity.
  - intros tw p Hin Hrep. cbn.
    repeat (apply elem_of_cons in Hin as [Etw|Hin];
      [subst tw; cbn in Hrep; injection Hrep as Ep; subst p;
       first [left; reflexivity | right; apply (bool_decide_unpack _); vm_compute; reflexivity]|]).
    apply elem_of_nil in Hin. contradiction.
Defined.

(** C3 counterexample: the only streamed post, 300, replies to 200, which
    is not in the stream; node 200 is created by the edge and has
    in-degree 0 although it is not the root 100. *)
Lemma orphan_parent_counterexample :
  match outcome (build (lookup_all prof_c0deed) try_into_copy rng_seq 100 7
                   [post 300 1 200] 10 0%nat) with
  | ROk st => 200 ∈ nodes (graph st) /\ 200 <> 100 /\ in_degree (graph st) 200 = 0%nat
  | _ => False
  end.
Proof.
  vm_compute. split; [|split; [discriminate|reflexivity]].
  apply (bool_decide_unpack _). vm_compute. reflexivity.
Qed.


(** C6. Let a stream be processed to completion, and suppose that streamed
    posts with the same converted id have the same author. Then the builder
    also completes on every permutation of the stream, whatever the RNG
    position, even when a child post arrives before its parent. It builds
    the same reply graph (nodes, edges and edge weights): [add_edge]
    creates missing endpoints, so the graph depends only on each post's
    parent link and author. *)
Theorem reply_graph_order_independent
    (lookup : Z -> result (list TwitterUser)) (try_into : RawTweet -> result Tweet)
    (rng : nat -> Z * Z * Z) (root_tid root_uid : Z) (l l' : list (Response RawTweet))
    (fuel n : nat) (st : CrawlState) (n' : nat) (tr : list event) (m : nat) :
  build lookup try_into rng root_tid root_uid l fuel n = mkRun (ROk st) n' tr ->
  l ≡ₚ l' ->
  (forall t1 t2 tw1 tw2, t1 ∈ l -> t2 ∈ l ->
     try_into (response t1) = Ok tw1 -> try_into (response t2) = Ok tw2 ->
     id tw1 = id tw2 -> author_id (response t1) = author_id (response t2)) ->
  exists st' m' tr',
    build lookup try_into rng root_tid root_uid l' fuel m = mkRun (ROk st') m' tr' /\
    graph st' = graph st.
Proof.
  unfold build. intros H Hp Hid.
  apply bind_ok_run in H as [st0 [n1 [tr1 [tr2 [H1 [H2 _]]]]]].
  destruct (init_any _ _ _ _ _ _ _ _ m H1) as [st1 [m1 [tr3 [Hi [Hus Hg]]]]].
  destruct (consume_post_ok _ _ _ _ _ _ _ _ _ _ H2) as [Hf Hall].
  destruct (consume_succeeds lookup try_into rng l' fuel st1 m1) as [st' [m' [tr' Hc]]].
  - rewrite <- (Permutation_length Hp). exact Hf.
  - apply Forall_forall. intros t Ht.
    assert (Ht0 : t ∈ l) by (apply list_elem_of_In; apply (Permutation_in t (Permutation_sym Hp));
                             apply list_elem_of_In; exact Ht).
    eapply post_ok_mono; [|exact (proj1 (Forall_forall _ _) Hall t Ht0)].
    intros b Hb. left. apply Hus. exact Hb.
  - exists st', (m' : nat), (tr3 ++ tr'). split; [eapply bind_ok_intro; [exact Hi|exact Hc]|].
    destruct (consume_graph _ _ _ _ _ _ _ _ _ _ H2) as [es [Hes Hge]].
    destruct (consume_graph _ _ _ _ _ _ _ _ _ _ Hc) as [es' [Hes' Hge']].
    rewrite Hge, Hge', Hg. symmetry. apply graph_fold_ext.
    + intros e. rewrite (edges_elem _ _ _ Hes), (edges_elem _ _ _ Hes').
      split; intros [t [Ht He]]; exists t; split; auto;
        apply list_elem_of_In; apply list_elem_of_In in Ht;
        [exact (Permutation_in t Hp Ht)|exact (Permutation_in t (Permutation_sym Hp) Ht)].
    + intros e1 e2 H1' H2' Ek.
      apply (edges_elem _ _ _ Hes) in H1' as [t1 [Ht1 [Ha1 [tw1 [Htw1 [Hi1 _]]]]]].
      apply (edges_elem _ _ _ Hes) in H2' as [t2 [Ht2 [Ha2 [tw2 [Htw2 [Hi2 _]]]]]].
      injection Ek as _ Ec.
      assert (Ea : author_id (response t1) = author_id (response t2))
        by (apply (Hid t1 t2 tw1 tw2); auto; congruence).
      rewrite Ha1, Ha2 in Ea. injection Ea as Ea. exact Ea.
Qed.

Lemma reply_graph_order_independent_witness :
  match build (lookup_all prof_c0deed) try_into_copy rng_seq 100 7 thread 10 0%nat with
  | {| outcome := ROk st; rng_after := n'; trace := tr |} =>
      exists st' m' tr',
        build (lookup_all prof_c0deed) try_into_copy rng_seq 100 7
              [post 300 1 200; post 201 2 100; post 200 1 100] 10 5%nat = mkRun (ROk st') m' tr' /\
        graph st' = graph st
  | _ => False
  end.
Proof.
  destruct (build (lookup_all prof_c0deed) try_into_copy rng_seq 100 7 thread 10 0%nat)
    as [[st| | |] n' tr] eqn:E; try (vm_compute in E; discriminate E).
  apply (reply_graph_order_independent _ _ _ 100 7 thread
           [post 300 1 200; post 201 2 100; post 200 1 100] 10 0%nat st n' tr 5%nat E).
  - exact (Permutation_rev thread).
  - intros t1 t2 tw1 tw2 H1 H2 E1 E2 Eid. unfold thread in H1, H2.
    repeat match goal with
           | H : _ ∈ _ :: _ |- _ => apply elem_of_cons in H as [->|H]
           | H : _ ∈ [] |- _ => apply elem_of_nil in H; contradiction
           end;
    cbn in E1, E2; injection E1 as <-; injection E2 as <-; cbn in Eid;
    first [reflexivity | discriminate Eid].
Defined.


(** C10 (amended). A streamed post without an author id panics at the
    author unwrap. A post whose author resolves and which converts, but
    whose conversion has no parent id, panics at the parent unwrap. When
    every streamed post carries both ids, the only panics left in the loop
    are those of [User::new]: indexing an empty lookup answer, or slicing
    a declared color shorter than six bytes. *)
Theorem loop_panic_sites
    (lookup : Z -> result (list TwitterUser)) (try_into : RawTweet -> result Tweet)
    (rng : nat -> Z * Z * Z) :
  (forall st t n, author_id (response t) = None ->
     outcome (process lookup try_into rng st t n) = RPanic UnwrapAuthorId) /\
  (forall st t n a tw, author_id (response t) = Some a ->
     is_Some (users st !! a) \/ new_ok lookup rng a ->
     try_into (response t) = Ok tw -> in_reply_to_status_id tw = None ->
     outcome (process lookup try_into rng st t n) = RPanic UnwrapInReplyTo) /\
  (forall l fuel st n p, Forall (carries_ids try_into) l ->
     outcome (consume lookup try_into rng poll_list fuel l st n) = RPanic p ->
     p = IndexOutOfBounds \/ p = StrSliceOutOfRange).
Proof.
  split; [|split].
  - intros st t n Ha. unfold process. rewrite Ha. reflexivity.
  - intros st t n a tw Ha Hu Ht Hp. unfold process. rewrite Ha.
    destruct (resolve_author_succeeds lookup rng (users st) a n Hu) as [us [n1 [tr1 Hr]]].
    rewrite (bind_ok_then _ _ n a n []) by reflexivity.
    rewrite (bind_ok_then _ _ n us n1 tr1 Hr).
    rewrite (bind_ok_then _ _ n1 tw n1 []) by (rewrite Ht; reflexivity).
    cbv beta zeta. rewrite Hp. reflexivity.
  - intros l fuel st n p Hl Hp.
    exact (only_panics_consume (fun p => p = IndexOutOfBounds \/ p = StrSliceOutOfRange)
             lookup try_into rng l (or_introl eq_refl) (or_intror eq_refl) Hl fuel st n p Hp).
Qed.

Lemma loop_panic_sites_witness :
  outcome (process (lookup_all prof_c0deed) try_into_copy rng_seq st_empty
             (post_anonymous 200 100) 0%nat) = RPanic UnwrapAuthorId /\
  outcome (process (lookup_all prof_c0deed) try_into_copy rng_seq st_empty
             (post_orphan 200 1) 0%nat) = RPanic UnwrapInReplyTo /\
  (Forall (carries_ids try_into_copy) [post 200 1 100] /\
   outcome (consume (lookup_all prof_short) try_into_copy rng_seq poll_list 10 [post 200 1 100]
              st_empty 0%nat) = RPanic StrSliceOutOfRange /\
   (StrSliceOutOfRange = IndexOutOfBounds \/ StrSliceOutOfRange = StrSliceOutOfRange)).
Proof.
  destruct (loop_panic_sites (lookup_all prof_c0deed) try_into_copy rng_seq) as [Ha [Hb _]].
  destruct (loop_panic_sites (lookup_all prof_short) try_into_copy rng_seq) as [_ [_ Hc]].
  assert (Hl : Forall (carries_ids try_into_copy) [post 200 1 100]).
  { constructor; [|constructor]. split; [eexists; reflexivity|].
    intros tw E. injection E as <-. eexists. reflexivity. }
  assert (Hr : outcome (consume (lookup_all prof_short) try_into_copy rng_seq poll_list 10
                          [post 200 1 100] st_empty 0%nat) = RPanic StrSliceOutOfRange)
    by (vm_compute; reflexivity).
  split; [apply Ha; reflexivity|].
  split; [apply (Hb _ _ _ 1 {| id := 200; in_reply_to_status_id := None |});
          [reflexivity | right; exists 0%nat; do 3 eexists; reflexivity | reflexivity | reflexivity]|].
  split; [exact Hl|]. split; [exact Hr|].
  exact (Hc _ _ _ _ _ Hl Hr).
Defined.

(** C10 counterexample: the only streamed post carries both ids, yet the
    loop panics in [User::new], slicing its author's three-byte color. *)
Lemma carried_ids_still_panic_counterexample :
  Forall (carries_ids try_into_copy) [post 200 1 100] /\
  outcome (build lookup_short try_into_copy rng_seq 100 7 [post 200 1 100] 10 0%nat)
    = RPanic StrSliceOutOfRange.
Proof.
  split.
  - constructor; [|constructor]. split; [eexists; reflexivity|].
    intros tw E. injection E as <-. eexists. reflexivity.
  - vm_compute. reflexivity.
Qed.

End BuilderClaims.

Module MainClaims.
Import SearchCursor Crawl Fixtures MonadFacts CrawlFacts MainFacts.

(** C5. Errors abort the crawl. (a) When a network call (authentication,
    fetching the root, a user lookup inside [User::new], or a page request,
    whose deserialization failures such as a page missing its pagination
    metadata come back as errors) is answered with an error, it is the last
    event of the run: nothing is requested after it, not even a retry, and
    the run ends in an error, not with a partial result. (b) When the loop
    body fails on a streamed post (its conversion, or anything else it
    returns as an error), the loop returns that error at once, with no
    event after the body's own. *)
Theorem crawl_aborts_on_error
    (lookup : Z -> result (list TwitterUser)) (try_into : RawTweet -> result Tweet)
    (rng : nat -> Z * Z * Z) (bearer_token : result unit) (show : Z -> result RootTweet)
    (endpoint : Z -> result (Response (Page RawTweet))) (root_tid now : Z) (fuel : nat) :
  (forall n pre ev post,
     trace (main lookup try_into rng bearer_token show endpoint root_tid now fuel n)
       = pre ++ ev :: post ->
     fails lookup bearer_token show endpoint root_tid ev ->
     post = [] /\
     is_err (outcome (main lookup try_into rng bearer_token show endpoint root_tid now fuel n))) /\
  (forall {S} (poll : S -> M (S * option (result (Response RawTweet)))) s st n s' t n1 tr1 e n2 tr2,
     poll s n = mkRun (ROk (s', Some (Ok t))) n1 tr1 ->
     process lookup try_into rng st t n1 = mkRun (RErr e) n2 tr2 ->
     consume lookup try_into rng poll (Datatypes.S fuel) s st n = mkRun (RErr e) n2 (tr1 ++ tr2)).
Proof.
  split.
  - set (failing := fails lookup bearer_token show endpoint root_tid).
    assert (Hlk : forall uid, failing (EvUserLookup uid) <-> exists e, lookup uid = Err e)
      by (intros; reflexivity).
    assert (Hpg : forall c, failing (EvPageRequest c) <-> exists e, endpoint c = Err e)
      by (intros; reflexivity).
    unfold main. apply (stops_emit_lift failing); [reflexivity|intros tk].
    apply (stops_emit_lift failing); [reflexivity|intros root].
    apply stops_bind; [|intros _].
    { destruct (7 <=? _); [apply stops_emit; intros []|apply stops_mret]. }
    apply stops_bind; [apply stops_unwrap|intros uid].
    apply stops_bind; [apply (stops_init failing lookup rng Hlk)|intros st].
    apply (stops_consume failing lookup try_into rng endpoint Hlk Hpg).
  - intros S poll s st n s' t n1 tr1 e n2 tr2 Hp Hb.
    cbn [consume]. unfold mbind at 1. rewrite Hp. cbn.
    unfold mbind. cbn. rewrite Hb. cbn. reflexivity.
Qed.

Lemma crawl_aborts_on_error_witness :
  (@nil event = [] /\
   is_err (outcome (main (lookup_all prof_c0deed) try_into_copy rng_seq (Ok tt) (show_at 0)
                      endpoint_malformed 100 0 10 0%nat))) /\
  consume (lookup_all prof_c0deed) (fun _ => Err MalformedResponseError) rng_seq poll_list 10
          [post 200 1 100] st_empty 0%nat
    = mkRun (RErr MalformedResponseError) 0%nat ([] ++ [EvUserLookup 1]).
Proof.
  destruct (crawl_aborts_on_error (lookup_all prof_c0deed) try_into_copy rng_seq (Ok tt)
              (show_at 0) endpoint_malformed 100 0 10) as [Ha _].
  destruct (crawl_aborts_on_error (lookup_all prof_c0deed) (fun _ => Err MalformedResponseError)
              rng_seq (Ok tt) (show_at 0) endpoint_malformed 100 0 9) as [_ Hb].
  split.
  - apply (Ha 0%nat [EvAuth; EvShowRoot; EvUserLookup 7] (EvPageRequest (-1)) []).
    + vm_compute. reflexivity.
    + exists MalformedResponseError. reflexivity.
  - apply (Hb _ poll_list [post 200 1 100] st_empty 0%nat [] (post 200 1 100) 0%nat []
             MalformedResponseError 0%nat [EvUserLookup 1]).
    + reflexivity.
    + vm_compute. reflexivity.
Defined.

(** C7 (amended). Once authentication and the root fetch succeed, the
    advisory is emitted exactly when the root is at least 7 days old:
    [num_days] of [now - created_at] is at least 7, that is
    [now - created_at >= 604800] seconds, a root exactly 7 days old
    included. The advisory alters nothing else: for any two clocks the runs
    have the same outcome, the same RNG position, and the same events apart
    from the advisory. *)
Theorem root_age_advisory
    (lookup : Z -> result (list TwitterUser)) (try_into : RawTweet -> result Tweet)
    (rng : nat -> Z * Z * Z) (tk : unit) (show : Z -> result RootTweet)
    (endpoint : Z -> result (Response (Page RawTweet))) (root_tid : Z) (root : RootTweet)
    (now now' : Z) (fuel n : nat) :
  show root_tid = Ok root ->
  (EvAdvisory ∈ trace (main lookup try_into rng (Ok tk) show endpoint root_tid now fuel n) <->
   604800000000000 <= now - created_at root) /\
  outcome (main lookup try_into rng (Ok tk) show endpoint root_tid now fuel n) =
  outcome (main lookup try_into rng (Ok tk) show endpoint root_tid now' fuel n) /\
  rng_after (main lookup try_into rng (Ok tk) show endpoint root_tid now fuel n) =
  rng_after (main lookup try_into rng (Ok tk) show endpoint root_tid now' fuel n) /\
  filter (fun ev => ev <> EvAdvisory)
    (trace (main lookup try_into rng (Ok tk) show endpoint root_tid now fuel n)) =
  filter (fun ev => ev <> EvAdvisory)
    (trace (main lookup try_into rng (Ok tk) show endpoint root_tid now' fuel n)).
Proof.
  intros Hs. rewrite !main_unfold, Hs. cbv zeta. cbn [outcome rng_after trace].
  set (r := mbind (unwrap (root_user root) UnwrapRootUser) _ n).
  assert (Hr : Forall (fun ev => ev <> EvAdvisory) (trace r)).
  { apply emits_bind; [apply emits_noevents; intros m; destruct (root_user root); reflexivity|].
    intros uid. apply emits_bind; [apply emits_init; discriminate|intros st].
    apply emits_consume; discriminate. }
  assert (Hf : forall b : bool, filter (fun ev => ev <> EvAdvisory)
                 (EvAuth :: EvShowRoot :: (if b then [EvAdvisory] else []) ++ trace r) =
               EvAuth :: EvShowRoot :: filter (fun ev => ev <> EvAdvisory) (trace r)).
  { intros b. rewrite !filter_cons_True by discriminate. destruct b; [|reflexivity].
    cbn [app]. rewrite filter_cons_False; [reflexivity|]. intros H. apply H. reflexivity. }
  split; [|split; [reflexivity|split; [reflexivity|rewrite !Hf; reflexivity]]].
  rewrite <- num_days_ge_7, <- Z.leb_le.
  rewrite !elem_of_cons, elem_of_app.
  split.
  - intros [H|[H|[H|H]]]; try discriminate H.
    + destruct (7 <=? _); [reflexivity|apply elem_of_nil in H; contradiction].
    + exfalso. apply (proj1 (Forall_forall _ _) Hr _ H). reflexivity.
  - intros ->. right. right. left. apply list_elem_of_here.
Qed.

Lemma root_age_advisory_witness :
  (EvAdvisory ∈ trace (main (lookup_all prof_c0deed) try_into_copy rng_seq (Ok tt)
                        (show_at 0) endpoint_thread 100 1000000000000000 10 0%nat) <->
   604800000000000 <= 1000000000000000 - created_at (root_at 0)) /\
  outcome (main (lookup_all prof_c0deed) try_into_copy rng_seq (Ok tt)
             (show_at 0) endpoint_thread 100 1000000000000000 10 0%nat) =
  outcome (main (lookup_all prof_c0deed) try_into_copy rng_seq (Ok tt)
             (show_at 0) endpoint_thread 100 0 10 0%nat).
Proof.
  destruct (root_age_advisory (lookup_all prof_c0deed) try_into_copy rng_seq tt (show_at 0)
              endpoint_thread 100 (root_at 0) 1000000000000000 0 10 0%nat eq_refl)
    as [H1 [H2 _]].
  split; [exact H1|exact H2].
Defined.

(** C7 counterexample: a root exactly 7 days old (604800 seconds, in
    nanoseconds) gets the advisory, although its age does not exceed 7
    days. *)
Lemma seven_days_exactly_counterexample :
  EvAdvisory ∈ trace (main (lookup_all prof_c0deed) try_into_copy rng_seq (Ok tt)
                       (show_at 0) endpoint_thread 100 604800000000000 10 0%nat) /\
  ~ (604800000000000 - created_at (root_at 0) > 604800000000000).
Proof.
  split.
  - apply list_elem_of_In. vm_compute. tauto.
  - cbn. lia.
Qed.

End MainClaims.

(** ** Further properties of the code *)

Module ConfigFacts.
Import SearchCursor CursorConfig.

Lemma to_string_inj z z' : to_string z = to_string z' -> z = z'.
Proof.
  unfold to_string. intros H.
  assert (Hn : forall w, Z.to_int w <> Decimal.Pos Decimal.Nil /\ Z.to_int w <> Decimal.Neg Decimal.Nil).
  { intros w. split; intros E.
    - pose proof (DecimalZ.of_to w) as Hw. rewrite E in Hw. cbn in Hw. subst w. discriminate E.
    - pose proof (DecimalZ.of_to w) as Hw. rewrite E in Hw. cbn in Hw. subst w. discriminate E. }
  destruct (Hn z) as [H1 H2]. destruct (Hn z') as [H1' H2'].
  pose proof (NilZero.isi _ H1 H2) as E. pose proof (NilZero.isi _ H1' H2') as E'.
  rewrite H, E' in E. injection E as E.
  rewrite <- (DecimalZ.of_to z), <- (DecimalZ.of_to z'), E. reflexivity.
Qed.

Lemma set_loader_none {Item} (st : SearchCursorIter (Item := Item)) :
  loader st = None -> set_loader st None = st.
Proof. destruct st; cbn; intros ->; reflexivity. Qed.

End ConfigFacts.

Module TokenFacts.
Import SearchCursor Crawl Report MonadFacts CursorFacts CrawlFacts MainFacts ConfigFacts.

Section Tokens.
Context {Item : Type}.
Variable e : Z -> result (Response (Page Item)).



End Tokens.


End TokenFacts.

Module ReportFacts.
Import SearchCursor Crawl Report MonadFacts CrawlFacts.

Lemma sum_list_with_perm {A} (f : A -> nat) (l l' : list A) :
  l ≡ₚ l' -> sum_list_with f l = sum_list_with f l'.
Proof. induction 1; cbn; lia. Qed.

Lemma reply_total_insert us a x :
  us !! a = None -> reply_total (<[a := x]> us) = (x.2 + reply_total us)%nat.
Proof.
  intros H. unfold reply_total. rewrite (sum_list_with_perm _ _ _ (map_to_list_insert us a x H)).
  reflexivity.
Qed.

Lemma reply_total_bump us a x :
  us !! a = Some x ->
  reply_total (alter (fun p : User * nat => (p.1, S p.2)) a us) = S (reply_total us).
Proof.
  intros H.
  assert (E1 : us = <[a := x]> (delete a us)) by (rewrite insert_delete_id; [reflexivity|exact H]).
  assert (E2 : alter (fun p : User * nat => (p.1, S p.2)) a us = <[a := (x.1, S x.2)]> (delete a us)).
  { apply map_eq. intros b. destruct (decide (b = a)) as [->|Hne].
    - rewrite lookup_alter_eq, lookup_insert_eq, H. reflexivity.
    - rewrite lookup_alter_ne, lookup_insert_ne, lookup_delete_ne by congruence. reflexivity. }
  rewrite E2. rewrite E1 at 2.
  rewrite !reply_total_insert by apply lookup_delete_eq. cbn. lia.
Qed.

Section Builder.
Variable lookup : Z -> result (list TwitterUser).
Variable try_into : RawTweet -> result Tweet.
Variable rng : nat -> Z * Z * Z.

Lemma resolve_author_total us a n us' n' tr :
  resolve_author lookup rng us a n = mkRun (ROk us') n' tr ->
  reply_total us' = S (reply_total us) /\ is_Some (us' !! a).
Proof.
  unfold resolve_author. intros H.
  apply bind_ok_run in H as [us1 [n1 [tr1 [tr2 [H1 [H2 _]]]]]].
  unfold mret in H2. injection H2 as <- _ _.
  assert (Hx : exists x, us1 !! a = Some x /\ reply_total us1 = reply_total us).
  { destruct (us !! a) as [x|] eqn:E.
    - unfold mret in H1. injection H1 as <- _ _. eauto.
    - apply bind_ok_run in H1 as [u [n2 [tr3 [tr4 [_ [H4 _]]]]]].
      unfold mret in H4. injection H4 as <- _ _.
      exists (u, 0%nat). rewrite lookup_insert_eq, reply_total_insert by exact E. auto. }
  destruct Hx as [x [Hx Ht]]. rewrite reply_total_bump with (x := x) by exact Hx.
  split; [congruence|]. rewrite lookup_alter_eq, Hx. eexists. reflexivity.
Qed.

Lemma consume_total l :
  forall fuel st n st' n' tr,
  consume lookup try_into rng poll_list fuel l st n = mkRun (ROk st') n' tr ->
  reply_total (users st') = (reply_total (users st) + length l)%nat.
Proof.
  induction l as [|t rest IH]; intros fuel st n st' n' tr H;
    (destruct fuel as [|fuel]; [discriminate H|]).
  - rewrite consume_nil in H. injection H; intros; subst. cbn. lia.
  - rewrite consume_cons in H.
    apply bind_ok_run in H as [st1 [n1 [tr1 [tr2 [H1 [H2 _]]]]]].
    apply process_ok in H1 as [a [us [tw [prev [_ [Hr [_ [_ ->]]]]]]]].
    apply resolve_author_total in Hr as [Hr _].
    rewrite (IH _ _ _ _ _ _ H2). cbn [users length]. rewrite Hr. lia.
Qed.

Lemma posts_by_pos b l : (0 < posts_by b l)%nat <-> b ∈ authors l.
Proof.
  unfold authors. rewrite elem_of_list_to_set, list_elem_of_omap.
  induction l as [|t l IH].
  - cbn. split; [lia|]. intros [x [Hx _]]. apply elem_of_nil in Hx. contradiction.
  - rewrite posts_by_cons. destruct (decide (author_id (response t) = Some b)) as [E|E].
    + split; [intros _; exists t; split; [apply list_elem_of_here|exact E]|lia].
    + cbn [Nat.add]. rewrite IH. split.
      * intros [x [Hx Ex]]. exists x. split; [apply list_elem_of_further, Hx|exact Ex].
      * intros [x [Hx Ex]]. apply elem_of_cons in Hx as [->|Hx]; [contradiction|]. eauto.
Qed.

(** The tweet table and the graph's nodes after a completed loop. *)
Lemma consume_tables l :
  forall fuel st n st' n' tr,
  consume lookup try_into rng poll_list fuel l st n = mkRun (ROk st') n' tr ->
  exists tws, Forall2 (fun t tw => try_into (response t) = Ok tw) l tws /\
    (forall x, x ∈ dom (tweets st') <-> x ∈ dom (tweets st) \/ x ∈ map id tws) /\
    (forall x, x ∈ nodes (graph st') <->
       x ∈ nodes (graph st) \/ x ∈ map id tws \/ x ∈ omap in_reply_to_status_id tws).
Proof.
  induction l as [|t rest IH]; intros fuel st n st' n' tr H;
    (destruct fuel as [|fuel]; [discriminate H|]).
  - rewrite consume_nil in H. injection H; intros; subst. exists []. split; [constructor|].
    cbn. split; intros x; [|rewrite elem_of_nil]; set_solver.
  - rewrite consume_cons in H.
    apply bind_ok_run in H as [st1 [n1 [tr1 [tr2 [H1 [H2 _]]]]]].
    apply process_ok in H1 as [a [us [tw [prev [_ [_ [Ht [Hp ->]]]]]]]].
    destruct (IH _ _ _ _ _ _ H2) as [tws [Htws [Hd Hn]]].
    exists (tw :: tws). split; [constructor; assumption|]. cbn [tweets graph] in Hd, Hn.
    split.
    + intros x. rewrite Hd, dom_insert, elem_of_union, elem_of_singleton. cbn [map].
      rewrite elem_of_cons. tauto.
    + intros x. rewrite Hn. cbn [nodes add_edge map].
      assert (Eo : omap in_reply_to_status_id (tw :: tws) = prev :: omap in_reply_to_status_id tws)
        by (cbn; rewrite Hp; reflexivity).
      rewrite Eo, elem_of_union, elem_of_union, !elem_of_singleton, !elem_of_cons. tauto.
Qed.

End Builder.
End ReportFacts.

Module MoreFacts.
Import SearchCursor Crawl MonadFacts CrawlFacts.

Lemma u8_digits_range acc s v :
  0 <= acc <= 255 -> u8_digits acc s = Ok v -> 0 <= v <= 255.
Proof.
  revert acc. induction s as [|a s IH]; intros acc Hacc H; cbn in H.
  - injection H as <-. exact Hacc.
  - destruct (to_digit16 a) as [d|] eqn:Ed; [|discriminate H].
    pose proof (to_digit16_range a d Ed).
    destruct (255 <? acc * 16) eqn:E1; [discriminate H|].
    destruct (255 <? acc * 16 + d) eqn:E2; [discriminate H|].
    apply Z.ltb_ge in E2. apply (IH (acc * 16 + d)) in H; [exact H|lia].
Qed.

End MoreFacts.


Module ArgsClaims.
Import Args ExtraFixtures.

(** X1 ([Display] and [FromStr] of [ArgWithEnvVarDefault]): printing a
    parsed string gives it back; parsing the printed form gives back the
    value exactly when the cell does not hold the empty string. *)
Theorem arg_display_round_trip :
  (forall s, fmt (from_str s) = s) /\
  (forall x, from_str (fmt x) = x <-> cell x <> Some ""%string).
Proof.
  split.
  - intros s. unfold fmt, from_str. cbn [cell].
    destruct (String.eqb_spec s ""); [congruence|reflexivity].
  - intros [[v|]]; unfold fmt, from_str; cbn [cell].
    + destruct (String.eqb_spec v ""); split; intros H; congruence.
    + cbn. split; [discriminate|reflexivity].
Qed.

Lemma arg_display_round_trip_witness :
  cell (mkArg (Some "k"%string)) <> Some ""%string /\
  from_str (fmt (mkArg (Some "k"%string))) = mkArg (Some "k"%string).
Proof.
  split; [discriminate|].
  apply (proj2 arg_display_round_trip (mkArg (Some "k"%string))). discriminate.
Defined.

(** X2 ([Deref] after [FromStr] of the command line argument): a
    non-empty argument is the value, without reading the environment; an
    absent or empty argument falls back to the environment variable, and
    panics with the [env_error] message when it is unset too. *)
Theorem deref_arg_or_env (A : EnvVarOrArg) (env : string -> option string) (a : option string) :
  (forall s, a = Some s -> s <> ""%string ->
     deref A env (parse_arg a) = Deref (mkArg (Some s)) s) /\
  ((a = None \/ a = Some ""%string) ->
     deref A env (parse_arg a) =
     match env (VAR_NAME A) with
     | Some v => Deref (mkArg (Some v)) v
     | None => DerefPanic (env_error A) (env_suggestion A)
     end).
Proof.
  split.
  - intros s -> Hs. unfold parse_arg, from_str, deref.
    rewrite (proj2 (String.eqb_neq s "") Hs). reflexivity.
  - intros [-> | ->]; reflexivity.
Qed.

Lemma deref_arg_or_env_witness :
  deref ConsumerKey env_key (parse_arg (Some "ck-arg"%string)) =
    Deref (mkArg (Some "ck-arg"%string)) "ck-arg"%string /\
  deref ConsumerKey env_key (parse_arg None) = Deref (mkArg (Some "ck-env"%string)) "ck-env"%string.
Proof.
  split.
  - apply (proj1 (deref_arg_or_env ConsumerKey env_key (Some "ck-arg"%string))); [reflexivity|discriminate].
  - exact (proj2 (deref_arg_or_env ConsumerKey env_key None) (or_introl eq_refl)).
Defined.

(** X3 ([Deref] fills the [OnceCell]): once a dereference succeeded, the
    updated value dereferences to the same string whatever the environment
    then holds. *)
Theorem deref_cached (A A' : EnvVarOrArg) (env env' : string -> option string)
    (x x' : ArgWithEnvVarDefault) (v : string) :
  deref A env x = Deref x' v -> deref A' env' x' = Deref x' v.
Proof.
  unfold deref. destruct (cell x) as [w|] eqn:E.
  - intros H. injection H as <- <-. rewrite E. reflexivity.
  - destruct (env (VAR_NAME A)) as [w|]; intros H; [|discriminate H].
    injection H as <- <-. reflexivity.
Qed.

Lemma deref_cached_witness :
  deref ConsumerKey env_key default = Deref (mkArg (Some "ck-env"%string)) "ck-env"%string /\
  deref ConsumerKey (fun _ => None) (mkArg (Some "ck-env"%string)) =
    Deref (mkArg (Some "ck-env"%string)) "ck-env"%string.
Proof.
  assert (H : deref ConsumerKey env_key default = Deref (mkArg (Some "ck-env"%string)) "ck-env"%string)
    by reflexivity.
  split; [exact H|].
  exact (deref_cached ConsumerKey ConsumerKey env_key (fun _ => None) default _ _ H).
Defined.



End ArgsClaims.

Module ConfigClaims.
Import SearchCursor CursorConfig MonadFacts CursorFacts MainFacts ConfigFacts Fixtures ExtraFixtures.

(** X5 ([call]): the request carries the current [next_cursor] as
    ["cursor"], the page size as ["count"] when one is set (the base
    parameters' own ["count"] otherwise), every other base parameter
    unchanged; and two requests with the same ["cursor"] are for the same
    cursor. *)
Theorem call_params_lookup {Item} (it it' : CursorIter Item) (k : string) :
  call_params it !! "cursor"%string = Some (to_string (next_cursor (cursor it))) /\
  call_params it !! "count"%string =
    match page_size it with
    | Some ps => Some (to_string ps)
    | None => base_params it !! "count"%string
    end /\
  (k <> "cursor"%string -> k <> "count"%string -> call_params it !! k = base_params it !! k) /\
  (call_params it !! "cursor"%string = call_params it' !! "cursor"%string ->
   next_cursor (cursor it) = next_cursor (cursor it')).
Proof.
  assert (Hc : forall i : CursorIter Item,
            call_params i !! "cursor"%string = Some (to_string (next_cursor (cursor i)))).
  { intros i. unfold call_params, add_opt_param, map_string; unfold add_param.
    destruct (page_size i); cbn [option_map].
    - rewrite lookup_insert_ne by discriminate. apply lookup_insert_eq.
    - apply lookup_insert_eq. }
  split; [apply Hc|split; [|split]].
  - unfold call_params, add_opt_param, map_string; unfold add_param.
    destruct (page_size it); cbn [option_map].
    + apply lookup_insert_eq.
    + rewrite lookup_insert_ne by discriminate. reflexivity.
  - intros H1 H2. unfold call_params, add_opt_param, map_string; unfold add_param.
    destruct (page_size it); cbn [option_map]; rewrite ?lookup_insert_ne by congruence; reflexivity.
  - rewrite !Hc. intros E. injection E as E. apply to_string_inj, E.
Qed.

Lemma call_params_lookup_witness :
  call_params search_sized !! "query"%string = Some "conversation_id:100"%string /\
  call_params search_unsized !! "count"%string = Some "10"%string /\
  next_cursor (cursor search_sized) = next_cursor (cursor search_unsized).
Proof.
  split; [|split].
  - rewrite (proj1 (proj2 (proj2 (call_params_lookup search_sized search_sized "query"%string))))
      by discriminate.
    vm_compute. reflexivity.
  - rewrite (proj1 (proj2 (call_params_lookup search_unsized search_unsized "count"%string))).
    vm_compute. reflexivity.
  - apply (proj2 (proj2 (proj2 (call_params_lookup search_sized search_unsized "cursor"%string)))).
    vm_compute. reflexivity.
Defined.

(** X6 ([with_page_size]): without a page size the cursor is returned
    unchanged; with one, the link and base parameters are kept, the new
    size is sent as ["count"], and the cursor starts over: ["cursor"] is
    -1 and the next poll requests the first page again. *)
Theorem with_page_size_resets {Item} (e : Z -> result (Response (Page Item)))
    (it : CursorIter Item) (ps : Z) (n : nat) :
  (page_size it = None -> with_page_size it ps = it) /\
  (page_size it <> None ->
     link (with_page_size it ps) = link it /\
     params_base (with_page_size it ps) = params_base it /\
     page_size (with_page_size it ps) = Some ps /\
     cursor (with_page_size it ps) = SearchCursor.new /\
     call_params (with_page_size it ps) !! "count"%string = Some (to_string ps) /\
     call_params (with_page_size it ps) !! "cursor"%string = Some "-1"%string /\
     trace (poll_next e (cursor (with_page_size it ps)) n) = [EvPageRequest (-1)]).
Proof.
  unfold with_page_size. destruct (page_size it) as [p|] eqn:E.
  - split; [discriminate|intros _]. cbn [link params_base page_size cursor].
    split; [reflexivity|split; [reflexivity|split; [reflexivity|split; [reflexivity|]]]].
    split; [unfold call_params, add_opt_param, map_string; unfold add_param; cbn; apply lookup_insert_eq|].
    split; [unfold call_params, add_opt_param, map_string; unfold add_param; cbn;
            rewrite lookup_insert_ne by discriminate; apply lookup_insert_eq|].
    rewrite (poll_next_reload e) by (cbn; auto). cbn. rewrite poll_loaded_trace. reflexivity.
  - split; [reflexivity|]. intros H. contradiction.
Qed.

Lemma with_page_size_resets_witness :
  with_page_size search_unsized 100 = search_unsized /\
  trace (poll_next endpoint_two (cursor (with_page_size search_sized 100)) 0%nat) = [EvPageRequest (-1)].
Proof.
  split.
  - apply (proj1 (with_page_size_resets endpoint_two search_unsized 100 0)). reflexivity.
  - assert (Hs : page_size search_sized <> None) by discriminate.
    destruct (proj2 (with_page_size_resets endpoint_two search_sized 100 0) Hs)
      as (_ & _ & _ & _ & _ & _ & H).
    exact H.
Defined.

(** X7 ([poll_next], error branch): when no page is pending and a page
    must be loaded, a failed request yields the error with one request and
    leaves the cursor state as it was, so the next poll asks for the same
    cursor again. *)
Theorem poll_error_keeps_state {Item} (e : Z -> result (Response (Page Item)))
    (st : SearchCursorIter (Item := Item)) (n : nat) (er : Error) :
  loader st = None ->
  (iter st = None \/ (iter st = Some [] /\ next_cursor st <> 0)) ->
  e (next_cursor st) = Err er ->
  poll_next e st n = mkRun (ROk (st, Some (Err er))) n [EvPageRequest (next_cursor st)].
Proof.
  intros Hl Hi He. rewrite (poll_next_reload e st n Hl Hi), He. cbn.
  rewrite set_loader_none by exact Hl. reflexivity.
Qed.

Lemma poll_error_keeps_state_witness :
  poll_next endpoint_down cursor_mid 0%nat =
  mkRun (ROk (cursor_mid, Some (Err TransportError))) 0%nat [EvPageRequest 42].
Proof.
  apply (poll_error_keeps_state endpoint_down cursor_mid 0 TransportError);
    [reflexivity|right; split; [reflexivity|discriminate]|reflexivity].
Defined.

(** X8 ([poll_next], empty page): a loaded page without items ends the
    poll with [None] after one request and stores the page's token; with
    token 0 every later poll returns [None] without a request, with another
    token the next poll requests that token. *)
Theorem empty_page_ends_poll {Item} (e : Z -> result (Response (Page Item)))
    (st : SearchCursorIter (Item := Item)) (n : nat) (p : Response (Page Item)) :
  loader st = None ->
  (iter st = None \/ (iter st = Some [] /\ next_cursor st <> 0)) ->
  e (next_cursor st) = Ok p -> into_inner (response p) = [] ->
  exists st',
    poll_next e st n = mkRun (ROk (st', None)) n [EvPageRequest (next_cursor st)] /\
    next_cursor st' = next_cursor_id (response p) /\
    (next_cursor_id (response p) = 0 -> forall m, poll_next e st' m = mkRun (ROk (st', None)) m []) /\
    (next_cursor_id (response p) <> 0 ->
       forall m, trace (poll_next e st' m) = [EvPageRequest (next_cursor_id (response p))]).
Proof.
  intros Hl Hi He Hp. rewrite (poll_next_reload e st n Hl Hi), He.
  unfold poll_loaded. cbv zeta. rewrite Hp. cbn [map].
  eexists. split; [reflexivity|]. cbn [next_cursor set_iter set_cursors].
  split; [reflexivity|]. split.
  - intros H0 m. unfold poll_next. cbn. rewrite H0. reflexivity.
  - intros H0 m. rewrite (poll_next_reload e) by (cbn; auto). cbn.
    rewrite poll_loaded_trace. reflexivity.
Qed.

Lemma empty_page_ends_poll_witness :
  exists st' : SearchCursorIter (Item := Z),
    poll_next endpoint_empty_last SearchCursor.new 0%nat = mkRun (ROk (st', None)) 0%nat [EvPageRequest (-1)] /\
    next_cursor st' = 0 /\
    forall m, poll_next endpoint_empty_last st' m = mkRun (ROk (st', None)) m [].
Proof.
  destruct (empty_page_ends_poll endpoint_empty_last SearchCursor.new 0 (page 3 0 []))
    as (st' & H1 & H2 & H3 & _); [reflexivity|left; reflexivity|reflexivity|reflexivity|].
  exists st'. split; [exact H1|split; [exact H2|apply H3; reflexivity]].
Defined.

(** X9 ([poll_next], page loaded): the first item of a fresh page is
    returned in the page's rate-limit envelope after one request; the
    cursors are the page's, no future is pending and the rest of the page
    is kept, in order, in the same envelope. *)
Theorem page_load_first_item {Item} (e : Z -> result (Response (Page Item)))
    (st : SearchCursorIter (Item := Item)) (n : nat) (p : Response (Page Item)) x xs :
  loader st = None ->
  (iter st = None \/ (iter st = Some [] /\ next_cursor st <> 0)) ->
  e (next_cursor st) = Ok p -> into_inner (response p) = x :: xs ->
  exists st',
    poll_next e st n =
      mkRun (ROk (st', Some (Ok {| rate_limit_status := rate_limit_status p; response := x |}))) n
            [EvPageRequest (next_cursor st)] /\
    previous_cursor st' = previous_cursor_id (response p) /\
    next_cursor st' = next_cursor_id (response p) /\
    loader st' = None /\
    iter st' = Some (map (fun i => {| rate_limit_status := rate_limit_status p; response := i |}) xs).
Proof.
  intros Hl Hi He Hp. rewrite (poll_next_reload e st n Hl Hi), He.
  unfold poll_loaded. cbv zeta. rewrite Hp. cbn [map].
  eexists. split; [reflexivity|]. cbn. auto.
Qed.

Lemma page_load_first_item_witness :
  exists st' : SearchCursorIter (Item := Z),
    poll_next endpoint_two SearchCursor.new 0%nat =
      mkRun (ROk (st', Some (Ok {| rate_limit_status := rl0; response := 1 |}))) 0%nat [EvPageRequest (-1)] /\
    previous_cursor st' = 0 /\ next_cursor st' = 5 /\ loader st' = None /\
    iter st' = Some [{| rate_limit_status := rl0; response := 2 |}].
Proof.
  apply (page_load_first_item endpoint_two SearchCursor.new 0 (page 0 5 [1; 2]) 1 [2]);
    [reflexivity|left; reflexivity|reflexivity|reflexivity].
Defined.

End ConfigClaims.

Module TokenClaims.
Import SearchCursor Crawl Report MonadFacts CursorFacts CrawlFacts MainFacts TokenFacts.


End TokenClaims.

Module ReportClaims.
Import SearchCursor Crawl Report MonadFacts CrawlFacts ReportFacts Fixtures.

(** X11 (the loop of [main]): after a completed crawl the reply counts of
    the author table add up to one more than the number of streamed posts
    (the root author starts at 1, every post adds 1). *)
Theorem reply_counts_total
    (lookup : Z -> result (list TwitterUser)) (try_into : RawTweet -> result Tweet)
    (rng : nat -> Z * Z * Z) (root_tid root_uid : Z) (l : list (Response RawTweet))
    (fuel n : nat) (st : CrawlState) (n' : nat) (tr : list event) :
  build lookup try_into rng root_tid root_uid l fuel n = mkRun (ROk st) n' tr ->
  reply_total (users st) = S (length l).
Proof.
  unfold build. intros H.
  apply bind_ok_run in H as [st0 [n1 [tr1 [tr2 [H1 [H2 _]]]]]].
  apply init_ok in H1 as [u [Hu _]].
  rewrite (consume_total _ _ _ _ _ _ _ _ _ _ H2), Hu.
  unfold reply_total. rewrite map_to_list_singleton. cbn. lia.
Qed.

Lemma reply_counts_total_witness :
  match build (lookup_all prof_c0deed) try_into_copy rng_seq 100 7 thread 10 0%nat with
  | {| outcome := ROk st; rng_after := _; trace := _ |} => reply_total (users st) = 4%nat
  | _ => False
  end.
Proof.
  destruct (build (lookup_all prof_c0deed) try_into_copy rng_seq 100 7 thread 10 0%nat)
    as [[st| | |] n' tr] eqn:E; try (vm_compute in E; discriminate E).
  exact (reply_counts_total _ _ _ _ _ _ _ _ st n' tr E).
Defined.

(** X12 (the loop of [main] and its final [eprintln!]): after a completed
    crawl the author table holds the root author and the authors of the
    streamed posts, the tweet table the root and the converted posts, the
    graph's nodes those posts and their parents; the printed numbers are
    the sizes of the node set and of the author set. *)
Theorem crawl_summary
    (lookup : Z -> result (list TwitterUser)) (try_into : RawTweet -> result Tweet)
    (rng : nat -> Z * Z * Z) (root_tid root_uid : Z) (l : list (Response RawTweet))
    (fuel n : nat) (st : CrawlState) (n' : nat) (tr : list event) :
  build lookup try_into rng root_tid root_uid l fuel n = mkRun (ROk st) n' tr ->
  exists tws,
    Forall2 (fun t tw => try_into (response t) = Ok tw) l tws /\
    dom (users st) = {[root_uid]} ∪ authors l /\
    dom (tweets st) = {[root_tid]} ∪ list_to_set (map id tws) /\
    nodes (graph st) =
      {[root_tid]} ∪ list_to_set (map id tws) ∪ list_to_set (omap in_reply_to_status_id tws) /\
    summary st = (size ({[root_tid]} ∪ list_to_set (map id tws) ∪
                         list_to_set (omap in_reply_to_status_id tws) : gset Z),
                  size ({[root_uid]} ∪ authors l)).
Proof.
  unfold build. intros H.
  apply bind_ok_run in H as [st0 [n1 [tr1 [tr2 [H1 [H2 _]]]]]].
  pose proof (consume_tables _ _ _ _ _ _ _ _ _ _ H2) as [tws [Htws [Hd Hn]]].
  apply init_ok in H1 as [u [Hu [Ht [Hg _]]]].
  assert (Hus : dom (users st) = {[root_uid]} ∪ authors l).
  { apply set_eq. intros b. rewrite elem_of_dom, elem_of_union, elem_of_singleton.
    destruct (consume_counts _ _ _ _ _ _ _ _ _ _ H2 b) as [_ [Hs _]].
    rewrite Hs, Hu, <- posts_by_pos.
    split.
    - intros [[x Hx]|Hp]; [|right; exact Hp].
      destruct (decide (b = root_uid)) as [->|Hne]; [left; reflexivity|].
      rewrite lookup_singleton_ne in Hx by congruence. discriminate Hx.
    - intros [->|Hp]; [left; rewrite lookup_singleton_eq; eexists; reflexivity|right; exact Hp]. }
  assert (Hnodes : nodes (graph st) =
      {[root_tid]} ∪ list_to_set (map id tws) ∪ list_to_set (omap in_reply_to_status_id tws)).
  { apply set_eq. intros x. rewrite Hn, Hg. cbn [nodes add_node graph_new].
    rewrite !elem_of_union, !elem_of_list_to_set, elem_of_singleton. set_solver. }
  exists tws. split; [exact Htws|]. split; [exact Hus|]. split.
  - apply set_eq. intros x. rewrite Hd, Ht, dom_singleton. set_solver.
  - split; [exact Hnodes|]. unfold summary, node_count. rewrite Hnodes, <- Hus.
    rewrite size_dom. reflexivity.
Qed.

Lemma crawl_summary_witness :
  match build (lookup_all prof_c0deed) try_into_copy rng_seq 100 7 thread 10 0%nat with
  | {| outcome := ROk st; rng_after := _; trace := _ |} => dom (users st) = {[7]} ∪ Report.authors thread
  | _ => False
  end.
Proof.
  destruct (build (lookup_all prof_c0deed) try_into_copy rng_seq 100 7 thread 10 0%nat)
    as [[st| | |] n' tr] eqn:E; try (vm_compute in E; discriminate E).
  destruct (crawl_summary _ _ _ _ _ _ _ _ st n' tr E) as (tws & _ & H & _).
  exact H.
Defined.

End ReportClaims.

Module MoreClaims.
Import SearchCursor Crawl MonadFacts CursorFacts CrawlFacts MainFacts MoreFacts Fixtures ExtraFixtures.

(** X16 ([u8::from_str_radix(_, 16)] on the two-character slices of
    [User::new]): it succeeds exactly on two hex digits, read as
    [16 * x + y], or on [+] followed by one hex digit; any value it returns
    is within 0..255. *)
Theorem u8_parse_two_chars (a b : ascii) (v : Z) :
  (u8_from_str_radix16 (String a (String b EmptyString)) = Ok v <->
   (exists x y, to_digit16 a = Some x /\ to_digit16 b = Some y /\ v = 16 * x + y) \/
   (a = "+"%char /\ to_digit16 b = Some v)) /\
  (forall s w, u8_from_str_radix16 s = Ok w -> 0 <= w <= 255).
Proof.
  split.
  - destruct (Ascii.eqb_spec a "+"%char) as [->|Hp].
    + cbn. destruct (to_digit16 b) as [d|] eqn:Ed.
      * pose proof (to_digit16_range b d Ed).
        rewrite (proj2 (Z.ltb_ge 255 (0 * 16))) by lia.
        rewrite (proj2 (Z.ltb_ge 255 (0 * 16 + d))) by lia.
        split.
        -- intros Hv. injection Hv as <-. right. split; [reflexivity|f_equal; lia].
        -- intros [[x [y [Hx _]]]|[_ Hd]]; [discriminate Hx|]. injection Hd as ->. f_equal; lia.
      * split; [discriminate|intros [[x [y [Hx _]]]|[_ Hd]]; discriminate].
    + destruct (Ascii.eqb_spec a "-"%char) as [->|Hm].
      * cbn. split; [discriminate|]. intros [[x [y [Hx _]]]|[Hx _]]; discriminate.
      * unfold u8_from_str_radix16.
        rewrite (proj2 (Ascii.eqb_neq _ _) Hp), (proj2 (Ascii.eqb_neq _ _) Hm). cbn [orb andb].
        cbn [u8_digits]. destruct (to_digit16 a) as [x|] eqn:Ex.
        -- pose proof (to_digit16_range a x Ex).
           replace (0 * 16 + x) with x by lia.
           rewrite (proj2 (Z.ltb_ge 255 (0 * 16))) by lia.
           rewrite (proj2 (Z.ltb_ge 255 x)) by lia.
           destruct (to_digit16 b) as [y|] eqn:Ey.
           ++ pose proof (to_digit16_range b y Ey).
              rewrite (proj2 (Z.ltb_ge 255 (x * 16))) by lia.
              rewrite (proj2 (Z.ltb_ge 255 (x * 16 + y))) by lia.
              split.
              ** intros Hv. injection Hv as <-. left. exists x, y. split; [reflexivity|split; [reflexivity|lia]].
              ** intros [[x' [y' [Hx' [Hy' ->]]]]|[Ha _]]; [|contradiction].
                 injection Hx' as <-. injection Hy' as <-. f_equal. lia.
           ++ split; [discriminate|]. intros [[x' [y' [_ [Hy' _]]]]|[Ha _]]; [discriminate|contradiction].
        -- split; [discriminate|]. intros [[x' [y' [Hx' _]]]|[Ha _]]; [discriminate|contradiction].
  - intros s w. unfold u8_from_str_radix16. destruct s as [|c rest]; [discriminate|].
    destruct (_ && _); [discriminate|].
    destruct (Ascii.eqb c "+"%char); apply u8_digits_range; lia.
Qed.

Lemma u8_parse_two_chars_witness :
  u8_from_str_radix16 "+f" = Ok 15 /\ u8_from_str_radix16 "ff" = Ok 255 /\ 0 <= 255 <= 255.
Proof.
  split; [|split].
  - apply (proj1 (u8_parse_two_chars "+"%char "f"%char 15)). right. split; reflexivity.
  - reflexivity.
  - apply (proj2 (u8_parse_two_chars "+"%char "f"%char 15) "ff"%string 255). reflexivity.
Defined.

(** X15 ([User::new]): one lookup is made; a lookup error is returned, an
    empty answer panics on [users[0]], and otherwise only the first profile
    is used: the user's handle and name are its screen name and name. *)
Theorem user_new_first_profile (lookup : Z -> result (list TwitterUser))
    (rng : nat -> Z * Z * Z) (uid : Z) (n : nat) :
  trace (user_new lookup rng uid n) = [EvUserLookup uid] /\
  (forall e, lookup uid = Err e -> outcome (user_new lookup rng uid n) = RErr e) /\
  (lookup uid = Ok [] -> outcome (user_new lookup rng uid n) = RPanic IndexOutOfBounds) /\
  (forall p ps, lookup uid = Ok (p :: ps) ->
     user_new lookup rng uid n = user_new (fun _ => Ok [p]) rng uid n /\
     (forall u n' tr, user_new lookup rng uid n = mkRun (ROk u) n' tr ->
        handle u = screen_name p /\ name u = user_name p)).
Proof.
  split; [apply user_new_trace|]. split; [|split].
  - intros e He. unfold user_new. rewrite outcome_bind. cbn. rewrite outcome_bind, He. reflexivity.
  - intros He. unfold user_new. rewrite outcome_bind. cbn. rewrite outcome_bind, He. reflexivity.
  - intros p ps He. split.
    + unfold user_new. rewrite He. reflexivity.
    + intros u n' tr H. unfold user_new in H. rewrite He in H.
      apply bind_ok_run in H as [? [? [? [? [_ [H _]]]]]].
      apply bind_ok_run in H as [us [? [? [? [Hl [H _]]]]]].
      cbn in Hl. injection Hl as <- _ _.
      apply bind_ok_run in H as [usr [? [? [? [Hu [H _]]]]]].
      cbn in Hu. injection Hu as <- _ _.
      apply bind_ok_run in H as [c [? [? [? [_ [H _]]]]]].
      unfold mret in H. injection H as <- _ _. split; reflexivity.
Qed.

Lemma user_new_first_profile_witness :
  outcome (user_new lookup_none rng_seq 1 0%nat) = RPanic IndexOutOfBounds /\
  user_new (fun _ => Ok [prof_c0deed; prof_short]) rng_seq 1 0%nat =
  user_new (fun _ => Ok [prof_c0deed]) rng_seq 1 0%nat.
Proof.
  split.
  - apply (proj1 (proj2 (proj2 (user_new_first_profile lookup_none rng_seq 1 0%nat)))). reflexivity.
  - exact (proj1 (proj2 (proj2 (proj2 (user_new_first_profile
      (fun _ => Ok [prof_c0deed; prof_short]) rng_seq 1 0%nat))) prof_c0deed [prof_short] eq_refl)).
Defined.

(** X13 (the loop body of [main]): a post by a new author whose conversion
    to a tweet fails ends the crawl with that error, after the author's
    lookup has been made. *)
Theorem failed_conversion_after_lookup
    (lookup : Z -> result (list TwitterUser)) (try_into : RawTweet -> result Tweet)
    (rng : nat -> Z * Z * Z) (st : CrawlState) (t : Response RawTweet) (n : nat)
    (a : Z) (u : User) (n1 : nat) (tr1 : list event) (e : Error) :
  author_id (response t) = Some a -> users st !! a = None ->
  user_new lookup rng a n = mkRun (ROk u) n1 tr1 ->
  try_into (response t) = Err e ->
  process lookup try_into rng st t n = mkRun (RErr e) n1 [EvUserLookup a].
Proof.
  intros Ha Hu Hn Ht. pose proof (user_new_trace lookup rng a n) as Htr. rewrite Hn in Htr.
  cbn in Htr. subst tr1.
  unfold process. rewrite Ha. cbn [unwrap]. rewrite bind_ret.
  unfold resolve_author. rewrite Hu.
  unfold mbind at 1 2 3. rewrite Hn. cbn. rewrite Ht. reflexivity.
Qed.

Lemma failed_conversion_after_lookup_witness :
  process (lookup_all prof_c0deed) try_into_fail rng_seq st_empty (post 200 1 100) 0%nat =
  mkRun (RErr MalformedResponseError) 0%nat [EvUserLookup 1].
Proof.
  apply (failed_conversion_after_lookup (lookup_all prof_c0deed) try_into_fail rng_seq st_empty
           (post 200 1 100) 0 1 user_alice 0 [EvUserLookup 1] MalformedResponseError);
    [reflexivity|reflexivity|vm_compute; reflexivity|reflexivity].
Defined.

(** X14 ([main]): a root post without author panics at the unwrap of its
    user id, after authentication, the root lookup and the age advisory,
    before any user lookup or search. *)
Theorem root_without_author_panics
    (lookup : Z -> result (list TwitterUser)) (try_into : RawTweet -> result Tweet)
    (rng : nat -> Z * Z * Z) (tk : unit) (show : Z -> result RootTweet)
    (endpoint : Z -> result (Response (Page RawTweet))) (root_tid : Z) (root : RootTweet)
    (now : Z) (fuel n : nat) :
  show root_tid = Ok root -> root_user root = None ->
  main lookup try_into rng (Ok tk) show endpoint root_tid now fuel n =
  mkRun (RPanic UnwrapRootUser) n
        (EvAuth :: EvShowRoot :: if 7 <=? num_days (now - created_at root) then [EvAdvisory] else []).
Proof.
  intros Hs Hr. rewrite main_unfold, Hs. cbv zeta. rewrite Hr. cbn. rewrite app_nil_r. reflexivity.
Qed.

Lemma root_without_author_panics_witness :
  main (lookup_all prof_c0deed) try_into_copy rng_seq (Ok tt) show_anon endpoint_thread 100 0 10 0%nat =
  mkRun (RPanic UnwrapRootUser) 0%nat [EvAuth; EvShowRoot].
Proof.
  apply (root_without_author_panics (lookup_all prof_c0deed) try_into_copy rng_seq tt show_anon
           endpoint_thread 100 {| created_at := 0; root_user := None |} 0 10 0%nat);
    reflexivity.
Defined.

(** X17 ([main]): a completed run authenticated, fetched the root post,
    found its author, and then made its first requests in this order:
    authentication, root lookup, the advisory if the root is a week old,
    the root author's lookup, the first search page. *)
Theorem main_request_order
    (lookup : Z -> result (list TwitterUser)) (try_into : RawTweet -> result Tweet)
    (rng : nat -> Z * Z * Z) (bearer_token : result unit) (show : Z -> result RootTweet)
    (endpoint : Z -> result (Response (Page RawTweet))) (root_tid now : Z) (fuel n : nat)
    (st : CrawlState) (n' : nat) (tr : list event) :
  main lookup try_into rng bearer_token show endpoint root_tid now fuel n = mkRun (ROk st) n' tr ->
  exists tk root uid tr',
    bearer_token = Ok tk /\ show root_tid = Ok root /\ root_user root = Some uid /\
    tr = EvAuth :: EvShowRoot ::
         (if 7 <=? num_days (now - created_at root) then [EvAdvisory] else []) ++
         EvUserLookup uid :: EvPageRequest (-1) :: tr'.
Proof.
  rewrite main_unfold. destruct bearer_token as [tk|er]; [|discriminate].
  destruct (show root_tid) as [root|er]; [|discriminate]. cbv zeta.
  set (r := mbind (unwrap (root_user root) UnwrapRootUser) _ n).
  intros H. injection H as Ho Hn Htr.
  assert (Hr : r = mkRun (ROk st) n' (trace r)) by (rewrite <- Ho, <- Hn; symmetry; apply run_eta).
  unfold r in Hr. apply bind_ok_run in Hr as [uid [n1 [tr1 [tr2 [H1 [H2 Etr]]]]]].
  fold r in Etr.
  destruct (root_user root) as [uid0|] eqn:Eru; cbn in H1; [|discriminate H1].
  injection H1 as -> <- <-.
  apply bind_ok_run in H2 as [st0 [n2 [tr3 [tr4 [H3 [H4 ->]]]]]].
  apply init_ok in H3 as [u [_ [_ [_ ->]]]].
  destruct fuel as [|fuel]; [discriminate H4|].
  pose proof (f_equal trace H4) as Ht4. cbn [consume trace] in Ht4.
  rewrite trace_bind in Ht4. rewrite (poll_next_reload endpoint new n2) in Ht4 by (cbn; auto).
  cbn [trace] in Ht4. rewrite poll_loaded_trace in Ht4. cbn [next_cursor new] in Ht4.
  exists tk, root, uid. eexists.
  split; [reflexivity|split; [reflexivity|split; [exact Eru|]]].
  rewrite <- Htr, Etr, <- Ht4. reflexivity.
Qed.

Lemma main_request_order_witness :
  match main (lookup_all prof_c0deed) try_into_copy rng_seq (Ok tt) (show_at 0) endpoint_thread 100 0 10 0%nat with
  | {| outcome := ROk _; rng_after := _; trace := tr |} =>
      exists tr', tr = EvAuth :: EvShowRoot :: EvUserLookup 7 :: EvPageRequest (-1) :: tr'
  | _ => False
  end.
Proof.
  destruct (main (lookup_all prof_c0deed) try_into_copy rng_seq (Ok tt) (show_at 0) endpoint_thread 100 0 10 0%nat)
    as [[st| | |] n' tr] eqn:E; try (vm_compute in E; discriminate E).
  destruct (main_request_order _ _ _ _ _ _ _ _ _ _ st n' tr E)
    as (tk & root & uid & tr' & _ & Hs & Hu & Htr).
  injection Hs as <-. injection Hu as <-.
  exists tr'. exact Htr.
Defined.

End MoreClaims.
